(** * Aggregation engine of the Amana marketing dashboard

    A shallow embedding of the four [useMemo] aggregators of the dashboard
    pages (region view, device view, weekly view, demographic view) and the
    properties of their results.

    Conventions of the embedding.

    - A JavaScript [number] is an exact rational or one of the three
      non-finite values [Infinity], [-Infinity], [NaN].  Binary64 rounding,
      overflow and the sign of zero are not modelled: arithmetic on finite
      values is exact, and a non-zero finite value divided by zero takes the
      sign of the numerator.
    - A JavaScript object used as a dictionary is the list of its own
      properties in creation order.  Keys that name a property of
      [Object.prototype] are outside the model.
    - [forEach] and [reduce] are left folds; the accumulators that the source
      mutates are threaded through the fold as an explicit state. *)

From Stdlib Require Import ZArith QArith Qcanon List String Ascii Bool Lia.
From Stdlib Require Import Sorted Permutation.
Import ListNotations.
Local Open Scope string_scope.
Local Open Scope list_scope.

(* ================================================================= *)
(** * JavaScript numbers *)

Module Number.

Inductive number : Type :=
| Fin (q : Qc)
| PosInfinity
| NegInfinity
| NaN.

Definition of_Z (z : Z) : number := Fin (Q2Qc (inject_Z z)).

(** The decimal literal [n / d], e.g. [25.2048] is [of_decimal 252048 10000]. *)
Definition of_decimal (n : Z) (d : positive) : number := Fin (Q2Qc (n # d)).

Definition zero : number := of_Z 0.
Definition one : number := of_Z 1.
Definition hundred : number := of_Z 100.

Definition finite (a : number) : Prop :=
  match a with Fin _ => True | _ => False end.

Definition is_finite (a : number) : bool :=
  match a with Fin _ => true | _ => false end.

Definition neg (a : number) : number :=
  match a with
  | Fin x => Fin (- x)%Qc
  | PosInfinity => NegInfinity
  | NegInfinity => PosInfinity
  | NaN => NaN
  end.

(** [a + b] *)
Definition add (a b : number) : number :=
  match a, b with
  | NaN, _ | _, NaN => NaN
  | Fin x, Fin y => Fin (x + y)%Qc
  | PosInfinity, NegInfinity | NegInfinity, PosInfinity => NaN
  | PosInfinity, _ | _, PosInfinity => PosInfinity
  | NegInfinity, _ | _, NegInfinity => NegInfinity
  end.

(** [a - b] *)
Definition sub (a b : number) : number := add a (neg b).

(** Sign of a finite value, as a comparison with zero. *)
Definition sgn (x : Qc) : comparison := (x ?= Q2Qc 0)%Qc.

Definition signed_infinity (positive : bool) : number :=
  if positive then PosInfinity else NegInfinity.

Definition scale_infinity (positive : bool) (x : Qc) : number :=
  match sgn x with
  | Eq => NaN
  | Gt => signed_infinity positive
  | Lt => signed_infinity (negb positive)
  end.

(** [a * b] *)
Definition mul (a b : number) : number :=
  match a, b with
  | NaN, _ | _, NaN => NaN
  | Fin x, Fin y => Fin (x * y)%Qc
  | PosInfinity, Fin y => scale_infinity true y
  | NegInfinity, Fin y => scale_infinity false y
  | Fin x, PosInfinity => scale_infinity true x
  | Fin x, NegInfinity => scale_infinity false x
  | PosInfinity, PosInfinity | NegInfinity, NegInfinity => PosInfinity
  | PosInfinity, NegInfinity | NegInfinity, PosInfinity => NegInfinity
  end.

(** [a / b]; a finite value over zero is [NaN] for [0 / 0] and an infinity
    of the numerator's sign otherwise. *)
Definition div (a b : number) : number :=
  match a, b with
  | NaN, _ | _, NaN => NaN
  | Fin x, Fin y =>
      match sgn y with
      | Eq => scale_infinity true x
      | _ => Fin (x / y)%Qc
      end
  | Fin _, PosInfinity | Fin _, NegInfinity => zero
  | PosInfinity, Fin y =>
      match sgn y with Lt => NegInfinity | _ => PosInfinity end
  | NegInfinity, Fin y =>
      match sgn y with Lt => PosInfinity | _ => NegInfinity end
  | _, _ => NaN
  end.

(** [a > b]; every comparison with [NaN] is false. *)
Definition gt (a b : number) : bool :=
  match a, b with
  | NaN, _ | _, NaN => false
  | Fin x, Fin y => match (x ?= y)%Qc with Gt => true | _ => false end
  | PosInfinity, PosInfinity => false
  | PosInfinity, _ => true
  | NegInfinity, _ => false
  | Fin _, PosInfinity => false
  | Fin _, NegInfinity => true
  end.

(** [a < b] *)
Definition lt (a b : number) : bool := gt b a.

(** [ToBoolean] on a number: [0] and [NaN] are falsy. *)
Definition truthy (a : number) : bool :=
  match a with
  | NaN => false
  | Fin x => match sgn x with Eq => false | _ => true end
  | _ => true
  end.

(** [a || b] on numbers. *)
Definition or_else (a b : number) : number := if truthy a then a else b.

End Number.

Import Number.

Declare Scope js_scope.
Delimit Scope js_scope with js.
Bind Scope js_scope with number.
Infix "+" := add : js_scope.
Infix "-" := sub : js_scope.
Infix "*" := mul : js_scope.
Infix "/" := div : js_scope.
Notation "a >? b" := (gt a b) (at level 70, no associativity) : js_scope.

Local Open Scope js_scope.

(* ================================================================= *)
(** * JavaScript objects used as dictionaries *)

Module JsObject.

(** Decimal value of a string of ASCII digits. *)
Definition digit_of (c : ascii) : option N :=
  let n := N_of_ascii c in
  if ((48 <=? n) && (n <=? 57))%N then Some (n - 48)%N else None.

Fixpoint digits_value (s : string) (acc : N) : option N :=
  match s with
  | EmptyString => Some acc
  | String c s' =>
      match digit_of c with
      | Some d => digits_value s' (acc * 10 + d)%N
      | None => None
      end
  end.

(** A property key is an array index when it is the canonical decimal form
    of an integer below [2^32 - 1]. *)
Definition array_index (s : string) : option N :=
  match s with
  | EmptyString => None
  | String c s' =>
      if andb (Ascii.eqb c "0") (negb (String.eqb s' EmptyString)) then None
      else match digits_value s 0 with
           | Some n => if (n <? 2 ^ 32 - 1)%N then Some n else None
           | None => None
           end
  end.

Definition is_array_index (s : string) : bool :=
  match array_index s with Some _ => true | None => false end.

Section Dictionary.
Context {V : Type}.

(** Own properties in creation order. *)
Definition object : Type := list (string * V).

Definition empty : object := [].

(** [o[k]] *)
Fixpoint get (k : string) (o : object) : option V :=
  match o with
  | [] => None
  | (k', v) :: o' => if String.eqb k k' then Some v else get k o'
  end.

(** [o[k] = v]: an existing property keeps its place, a new one is
    created after all the others. *)
Fixpoint set (k : string) (v : V) (o : object) : object :=
  match o with
  | [] => [(k, v)]
  | (k', v') :: o' =>
      if String.eqb k k' then (k', v) :: o' else (k', v') :: set k v o'
  end.

(** Insertion of an array-index property among those already in
    ascending order. *)
Fixpoint insert_index (n : N) (kv : string * V)
    (l : list (N * (string * V))) : list (N * (string * V)) :=
  match l with
  | [] => [(n, kv)]
  | (m, kv') :: l' =>
      if (n <? m)%N then (n, kv) :: l else (m, kv') :: insert_index n kv l'
  end.

Fixpoint index_properties (o : object) : list (N * (string * V)) :=
  match o with
  | [] => []
  | kv :: o' =>
      match array_index (fst kv) with
      | Some n => insert_index n kv (index_properties o')
      | None => index_properties o'
      end
  end.

Definition string_properties (o : object) : object :=
  filter (fun kv => negb (is_array_index (fst kv))) o.

(** [Object.entries(o)]: array-index keys in ascending numeric order, then
    the other keys in creation order. *)
Definition entries (o : object) : list (string * V) :=
  map snd (index_properties o) ++ string_properties o.

(** [Object.keys(o)] *)
Definition keys (o : object) : list string := map fst (entries o).

(** [Object.values(o)] *)
Definition values (o : object) : list V := map snd (entries o).

End Dictionary.

Arguments object V : clear implicits.

End JsObject.

(* ================================================================= *)
(** * The campaign dataset (types/marketing)

    The type declarations are not among the sources at hand; the records
    below carry the fields that the four pages read. *)

Module RegionalPerformance.
Record t : Type := mk {
  region : string;
  country : string;
  impressions : number;
  clicks : number;
  conversions : number;
  spend : number;
  revenue : number;
  ctr : number;
  conversion_rate : number;
  cpc : number;
  cpa : number;
  roas : number
}.
End RegionalPerformance.

Module DevicePerformance.
Record t : Type := mk {
  device : string;
  impressions : number;
  clicks : number;
  conversions : number;
  spend : number;
  revenue : number;
  ctr : number;
  conversion_rate : number
}.
End DevicePerformance.

Module WeeklyPerformance.
Record t : Type := mk {
  week_start : string;
  week_end : string;
  impressions : number;
  clicks : number;
  conversions : number;
  spend : number;
  revenue : number
}.
End WeeklyPerformance.

Module DemographicBreakdown.
Record Performance : Type := mkPerformance {
  impressions : number;
  clicks : number;
  conversions : number
}.
Record t : Type := mk {
  age_group : string;
  gender : string;
  percentage_of_audience : number;
  performance : Performance
}.
End DemographicBreakdown.

Module Campaign.
Record t : Type := mk {
  name : string;
  spend : number;
  revenue : number;
  regional_performance : list RegionalPerformance.t;
  device_performance : list DevicePerformance.t;
  weekly_performance : list WeeklyPerformance.t;
  demographic_breakdown : list DemographicBreakdown.t
}.
End Campaign.

(** [marketingData?.campaigns]: [None] when the dataset is not loaded. *)
Definition campaigns_opt : Type := option (list Campaign.t).

(* ================================================================= *)
(** * app/region-view/page.tsx *)

Module RegionView.

Import RegionalPerformance.

(** [UAE_CITY_COORDINATES] *)
Definition UAE_CITY_COORDINATES : JsObject.object (number * number) :=
  [ ("Dubai", (of_decimal 252048 10000, of_decimal 552708 10000));
    ("Sharjah", (of_decimal 253460 10000, of_decimal 554200 10000));
    ("Abu Dhabi", (of_decimal 244539 10000, of_decimal 543773 10000));
    ("Al Ain", (of_decimal 241302 10000, of_decimal 558023 10000));
    ("Ras Al Khaimah", (of_decimal 256741 10000, of_decimal 559804 10000));
    ("Fujairah", (of_decimal 251288 10000, of_decimal 563265 10000));
    ("Ajman", (of_decimal 254052 10000, of_decimal 555136 10000));
    ("Umm Al Quwain", (of_decimal 255653 10000, of_decimal 555533 10000)) ].

(** [selectedValueKey] *)
Inductive ValueKey : Type := key_revenue | key_spend.

(** [RegionalPerformance & { campaignCount: number }] *)
Record RegionGroup : Type := mkGroup {
  perf :> RegionalPerformance.t;
  campaignCount : number
}.

(** An element of [regionalData]. *)
Record RegionDatum : Type := mkDatum {
  group :> RegionGroup;
  lat : option number;
  lng : option number;
  value : number
}.

Record Totals : Type := mkTotals {
  totalRevenue : number;
  totalSpend : number;
  totalImpressions : number;
  totalClicks : number;
  totalConversions : number
}.

Record Result : Type := mkResult {
  totals :> Totals;
  regionalData : list RegionDatum;
  topRegion : option RegionDatum
}.

Definition regionKey (region : RegionalPerformance.t) : string :=
  region.(RegionalPerformance.region) ++ "_" ++ region.(country).

(** The [else] branch of the loop body: the five [+=] on the stored record,
    the increment of [campaignCount], then the five derived metrics from the
    updated counters. *)
Definition accumulate (r : RegionGroup) (region : RegionalPerformance.t)
  : RegionGroup :=
  let impressions' := r.(impressions) + region.(impressions) in
  let clicks' := r.(clicks) + region.(clicks) in
  let conversions' := r.(conversions) + region.(conversions) in
  let spend' := r.(spend) + region.(spend) in
  let revenue' := r.(revenue) + region.(revenue) in
  {| perf :=
       {| RegionalPerformance.region := r.(RegionalPerformance.region);
          country := r.(country);
          impressions := impressions';
          clicks := clicks';
          conversions := conversions';
          spend := spend';
          revenue := revenue';
          ctr := if impressions' >? zero
                 then (clicks' / impressions') * hundred else zero;
          conversion_rate := if clicks' >? zero
                             then (conversions' / clicks') * hundred else zero;
          cpc := if clicks' >? zero then spend' / clicks' else zero;
          cpa := if conversions' >? zero then spend' / conversions' else zero;
          roas := if spend' >? zero then revenue' / spend' else zero |};
     campaignCount := r.(campaignCount) + one |}.

(** Body of the inner [forEach]. *)
Definition add_region (regionMap : JsObject.object RegionGroup)
    (region : RegionalPerformance.t) : JsObject.object RegionGroup :=
  match JsObject.get (regionKey region) regionMap with
  | None =>
      JsObject.set (regionKey region)
        {| perf := region; campaignCount := one |} regionMap
  | Some r =>
      JsObject.set (regionKey region) (accumulate r region) regionMap
  end.

Definition add_campaign (regionMap : JsObject.object RegionGroup)
    (campaign : Campaign.t) : JsObject.object RegionGroup :=
  fold_left add_region campaign.(Campaign.regional_performance) regionMap.

Definition build_regionMap (campaigns : list Campaign.t)
  : JsObject.object RegionGroup :=
  fold_left add_campaign campaigns JsObject.empty.

Definition select (selectedValueKey : ValueKey) (region : RegionGroup)
  : number :=
  match selectedValueKey with
  | key_revenue => region.(revenue)
  | key_spend => region.(spend)
  end.

Definition with_coordinates (selectedValueKey : ValueKey)
    (region : RegionGroup) : RegionDatum :=
  {| group := region;
     lat := option_map fst
              (JsObject.get region.(RegionalPerformance.region)
                 UAE_CITY_COORDINATES);
     lng := option_map snd
              (JsObject.get region.(RegionalPerformance.region)
                 UAE_CITY_COORDINATES);
     value := select selectedValueKey region |}.

Definition zero_totals : Totals :=
  {| totalRevenue := zero; totalSpend := zero; totalImpressions := zero;
     totalClicks := zero; totalConversions := zero |}.

Definition add_totals (acc : Totals) (region : RegionDatum) : Totals :=
  {| totalRevenue := acc.(totalRevenue) + region.(revenue);
     totalSpend := acc.(totalSpend) + region.(spend);
     totalImpressions := acc.(totalImpressions) + region.(impressions);
     totalClicks := acc.(totalClicks) + region.(clicks);
     totalConversions := acc.(totalConversions) + region.(conversions) |}.

(** [top?.revenue || 0] *)
Definition top_revenue (top : option RegionDatum) : number :=
  match top with
  | Some t => or_else t.(revenue) zero
  | None => zero
  end.

(** The reducer of [topRegion]. *)
Definition pick_top (top : option RegionDatum) (current : RegionDatum)
  : option RegionDatum :=
  if current.(revenue) >? top_revenue top then Some current else top.

Definition regionalMetrics (campaigns : campaigns_opt)
    (selectedValueKey : ValueKey) : Result :=
  match campaigns with
  | None =>
      {| totals := zero_totals; regionalData := []; topRegion := None |}
  | Some campaigns =>
      let regionMap := build_regionMap campaigns in
      let regionalData :=
        map (with_coordinates selectedValueKey) (JsObject.values regionMap) in
      {| totals := fold_left add_totals regionalData zero_totals;
         regionalData := regionalData;
         topRegion := fold_left pick_top regionalData None |}
  end.

End RegionView.

(* ================================================================= *)
(** * app/device-view/page.tsx *)

Module DeviceView.

Import DevicePerformance.

(** [mobileData] and [desktopData]. *)
Record DeviceData : Type := mkData {
  d_impressions : number;
  d_clicks : number;
  d_conversions : number;
  d_spend : number;
  d_revenue : number;
  d_ctr : number;
  d_conversion_rate : number;
  percentage_of_traffic : number;
  campaignCount : number
}.

(** A row of [performanceByCampaign]. *)
Record Row : Type := mkRow {
  campaignName : string;
  r_device : string;
  r_impressions : number;
  r_clicks : number;
  r_conversions : number;
  r_spend : number;
  r_revenue : number;
  r_ctr : number;
  r_conversion_rate : number;
  r_roas : number
}.

(** A point of a chart series. *)
Record Point : Type := mkPoint {
  label : string;
  value : number;
  color : string
}.

Record Result : Type := mkResult {
  mobile : DeviceData;
  desktop : DeviceData;
  deviceComparison : list Point;
  performanceByCampaign : list Row;
  roasComparison : list Point;
  conversionRateComparison : list Point
}.

Definition zero_data : DeviceData :=
  {| d_impressions := zero; d_clicks := zero; d_conversions := zero;
     d_spend := zero; d_revenue := zero; d_ctr := zero;
     d_conversion_rate := zero; percentage_of_traffic := zero;
     campaignCount := zero |}.

(** The six [+=] of a bucket. *)
Definition accumulate (data : DeviceData) (device : DevicePerformance.t)
  : DeviceData :=
  {| d_impressions := data.(d_impressions) + device.(impressions);
     d_clicks := data.(d_clicks) + device.(clicks);
     d_conversions := data.(d_conversions) + device.(conversions);
     d_spend := data.(d_spend) + device.(spend);
     d_revenue := data.(d_revenue) + device.(revenue);
     d_ctr := data.(d_ctr);
     d_conversion_rate := data.(d_conversion_rate);
     percentage_of_traffic := data.(percentage_of_traffic);
     campaignCount := data.(campaignCount) + one |}.

Definition row (campaign : Campaign.t) (device : DevicePerformance.t) : Row :=
  {| campaignName := campaign.(Campaign.name);
     r_device := device.(DevicePerformance.device);
     r_impressions := device.(impressions);
     r_clicks := device.(clicks);
     r_conversions := device.(conversions);
     r_spend := device.(spend);
     r_revenue := device.(revenue);
     r_ctr := device.(ctr);
     r_conversion_rate := device.(conversion_rate);
     r_roas := if device.(spend) >? zero
               then device.(revenue) / device.(spend) else zero |}.

(** The variables the two loops update. *)
Record State : Type := mkState {
  mobileData : DeviceData;
  desktopData : DeviceData;
  rows : list Row
}.

Definition init : State :=
  {| mobileData := zero_data; desktopData := zero_data; rows := [] |}.

(** Body of the inner [forEach]. *)
Definition add_device (campaign : Campaign.t) (st : State)
    (device : DevicePerformance.t) : State :=
  let st' :=
    if String.eqb device.(DevicePerformance.device) "Mobile" then
      {| mobileData := accumulate st.(mobileData) device;
         desktopData := st.(desktopData);
         rows := st.(rows) |}
    else if String.eqb device.(DevicePerformance.device) "Desktop" then
      {| mobileData := st.(mobileData);
         desktopData := accumulate st.(desktopData) device;
         rows := st.(rows) |}
    else st in
  {| mobileData := st'.(mobileData);
     desktopData := st'.(desktopData);
     rows := st'.(rows) ++ [row campaign device] |}.

Definition add_campaign (st : State) (campaign : Campaign.t) : State :=
  fold_left (add_device campaign) campaign.(Campaign.device_performance) st.

Definition run (campaigns : list Campaign.t) : State :=
  fold_left add_campaign campaigns init.

(** [ctr] and [conversion_rate] of a bucket, from its own counters. *)
Definition with_rates (data : DeviceData) : DeviceData :=
  {| d_impressions := data.(d_impressions);
     d_clicks := data.(d_clicks);
     d_conversions := data.(d_conversions);
     d_spend := data.(d_spend);
     d_revenue := data.(d_revenue);
     d_ctr := if data.(d_impressions) >? zero
              then (data.(d_clicks) / data.(d_impressions)) * hundred
              else zero;
     d_conversion_rate :=
       if data.(d_clicks) >? zero
       then (data.(d_conversions) / data.(d_clicks)) * hundred
       else zero;
     percentage_of_traffic := data.(percentage_of_traffic);
     campaignCount := data.(campaignCount) |}.

(** [data.percentage_of_traffic =
      data.impressions / (mobileData.impressions + desktopData.impressions) * 100] *)
Definition with_traffic (mobile_impressions desktop_impressions : number)
    (data : DeviceData) : DeviceData :=
  {| d_impressions := data.(d_impressions);
     d_clicks := data.(d_clicks);
     d_conversions := data.(d_conversions);
     d_spend := data.(d_spend);
     d_revenue := data.(d_revenue);
     d_ctr := data.(d_ctr);
     d_conversion_rate := data.(d_conversion_rate);
     percentage_of_traffic :=
       data.(d_impressions) / (mobile_impressions + desktop_impressions)
       * hundred;
     campaignCount := data.(campaignCount) |}.

Definition device_roas (data : DeviceData) : number :=
  if data.(d_spend) >? zero then data.(d_revenue) / data.(d_spend) else zero.

Definition deviceMetrics (campaigns : campaigns_opt) : Result :=
  match campaigns with
  | None =>
      {| mobile := zero_data; desktop := zero_data;
         deviceComparison := []; performanceByCampaign := [];
         roasComparison := []; conversionRateComparison := [] |}
  | Some campaigns =>
      let st := run campaigns in
      let total_mobile := st.(mobileData).(d_impressions) in
      let total_desktop := st.(desktopData).(d_impressions) in
      let mobile' :=
        with_traffic total_mobile total_desktop (with_rates st.(mobileData)) in
      let desktop' :=
        with_traffic total_mobile total_desktop (with_rates st.(desktopData)) in
      {| mobile := mobile';
         desktop := desktop';
         deviceComparison :=
           [ {| label := "Mobile"; value := mobile'.(d_revenue);
                color := "#3B82F6" |};
             {| label := "Desktop"; value := desktop'.(d_revenue);
                color := "#10B981" |} ];
         performanceByCampaign := st.(rows);
         roasComparison :=
           [ {| label := "Mobile"; value := device_roas mobile';
                color := "#3B82F6" |};
             {| label := "Desktop"; value := device_roas desktop';
                color := "#10B981" |} ];
         conversionRateComparison :=
           [ {| label := "Mobile"; value := mobile'.(d_conversion_rate);
                color := "#3B82F6" |};
             {| label := "Desktop"; value := desktop'.(d_conversion_rate);
                color := "#10B981" |} ] |}
  end.

End DeviceView.

(* ================================================================= *)
(** * Array.prototype.sort *)

Module JsArray.

Section Sort.
Context {A : Type}.
Variable comparefn : A -> A -> number.

(** [x] preceded every element of [l] in the array being sorted: it moves
    behind the elements it compares greater than and stays in front of
    the first one for which [comparefn x y] is not positive ([NaN] counts
    as [0]). *)
Fixpoint insert (x : A) (l : list A) : list A :=
  match l with
  | [] => [x]
  | y :: l' => if comparefn x y >? zero then y :: insert x l' else x :: l
  end.

(** The sort is stable; with a consistent comparator its result does not
    depend on the algorithm, which the language leaves open. *)
Definition sort (l : list A) : list A := fold_right insert [] l.

End Sort.

End JsArray.

(* ================================================================= *)
(** * app/weekly-view/page.tsx *)

Module WeeklyView.

Import WeeklyPerformance.

Record Point : Type := mkPoint {
  label : string;
  value : number;
  color : string
}.

Record Totals : Type := mkTotals {
  totalRevenue : number;
  totalSpend : number;
  totalImpressions : number;
  totalClicks : number;
  totalConversions : number
}.

(** [weeklyData] is missing from the object returned for an absent
    dataset. *)
Record Result : Type := mkResult {
  totals :> Totals;
  revenueByWeek : list Point;
  spendByWeek : list Point;
  impressionsByWeek : list Point;
  clicksByWeek : list Point;
  weeklyData : option (list WeeklyPerformance.t)
}.

Definition weekKey (week : WeeklyPerformance.t) : string :=
  week.(week_start) ++ "_" ++ week.(week_end).

(** The five [+=] of the [else] branch. *)
Definition accumulate (w week : WeeklyPerformance.t) : WeeklyPerformance.t :=
  {| week_start := w.(week_start);
     week_end := w.(week_end);
     impressions := w.(impressions) + week.(impressions);
     clicks := w.(clicks) + week.(clicks);
     conversions := w.(conversions) + week.(conversions);
     spend := w.(spend) + week.(spend);
     revenue := w.(revenue) + week.(revenue) |}.

(** Body of the inner [forEach]. *)
Definition add_week (weeklyMap : JsObject.object WeeklyPerformance.t)
    (week : WeeklyPerformance.t) : JsObject.object WeeklyPerformance.t :=
  match JsObject.get (weekKey week) weeklyMap with
  | None => JsObject.set (weekKey week) week weeklyMap
  | Some w => JsObject.set (weekKey week) (accumulate w week) weeklyMap
  end.

Definition add_campaign (weeklyMap : JsObject.object WeeklyPerformance.t)
    (campaign : Campaign.t) : JsObject.object WeeklyPerformance.t :=
  fold_left add_week campaign.(Campaign.weekly_performance) weeklyMap.

Definition build_weeklyMap (campaigns : list Campaign.t)
  : JsObject.object WeeklyPerformance.t :=
  fold_left add_campaign campaigns JsObject.empty.

Definition zero_totals : Totals :=
  {| totalRevenue := zero; totalSpend := zero; totalImpressions := zero;
     totalClicks := zero; totalConversions := zero |}.

Definition add_totals (acc : Totals) (week : WeeklyPerformance.t) : Totals :=
  {| totalRevenue := acc.(totalRevenue) + week.(revenue);
     totalSpend := acc.(totalSpend) + week.(spend);
     totalImpressions := acc.(totalImpressions) + week.(impressions);
     totalClicks := acc.(totalClicks) + week.(clicks);
     totalConversions := acc.(totalConversions) + week.(conversions) |}.

Section Dates.
(** [new Date(s).getTime()]: milliseconds since the epoch, [NaN] for a
    string that is not a date.  Which strings are dates depends on the
    engine, so the function is a parameter of the aggregator. *)
Variable Date_getTime : string -> number.

(** [new Date(s).toLocaleDateString('en-US', { month: 'short', day: 'numeric' })] *)
Variable Date_toLocaleDateString : string -> string.

(** The comparator handed to [sort]. *)
Definition by_week_start (a b : WeeklyPerformance.t) : number :=
  Date_getTime a.(week_start) - Date_getTime b.(week_start).

Definition series (field : WeeklyPerformance.t -> number) (colour : string)
    (weeklyData : list WeeklyPerformance.t) : list Point :=
  map (fun week =>
         {| label := "Week " ++ Date_toLocaleDateString week.(week_start);
            value := field week;
            color := colour |}) weeklyData.

Definition weeklyMetrics (campaigns : campaigns_opt) : Result :=
  match campaigns with
  | None =>
      {| totals := zero_totals; revenueByWeek := []; spendByWeek := [];
         impressionsByWeek := []; clicksByWeek := []; weeklyData := None |}
  | Some campaigns =>
      let weeklyMap := build_weeklyMap campaigns in
      let weeklyData :=
        JsArray.sort by_week_start (JsObject.values weeklyMap) in
      {| totals := fold_left add_totals weeklyData zero_totals;
         revenueByWeek := series revenue "#10B981" weeklyData;
         spendByWeek := series spend "#3B82F6" weeklyData;
         impressionsByWeek := series impressions "#F59E0B" weeklyData;
         clicksByWeek := series clicks "#EF4444" weeklyData;
         weeklyData := Some weeklyData |}
  end.

End Dates.

(** ** Dates in the form [YYYY-MM-DD]

    Such a string denotes midnight UTC of that day.  Only this form, with a
    month in [1..12] and a day that exists in the month, is covered; any
    other string is [NaN] here. *)

Definition digit (c : ascii) : option Z :=
  option_map Z.of_N (JsObject.digit_of c).

Definition is_leap (y : Z) : bool :=
  ((y mod 4 =? 0) && negb (y mod 100 =? 0) || (y mod 400 =? 0))%Z.

Definition days_in_month (y m : Z) : Z :=
  if (m =? 2)%Z then (if is_leap y then 29 else 28)
  else if ((m =? 4) || (m =? 6) || (m =? 9) || (m =? 11))%Z then 30
  else 31.

(** Days from 1970-01-01 to the given day of the proleptic Gregorian
    calendar. *)
Definition days_from_civil (y m d : Z) : Z :=
  let y' := (if m <=? 2 then y - 1 else y)%Z in
  let era := (y' / 400)%Z in
  let yoe := (y' - era * 400)%Z in
  let mp := ((m + 9) mod 12)%Z in
  let doy := ((153 * mp + 2) / 5 + d - 1)%Z in
  let doe := (yoe * 365 + yoe / 4 - yoe / 100 + doy)%Z in
  (era * 146097 + doe - 719468)%Z.

Definition number2 (a b : ascii) : option Z :=
  match digit a, digit b with
  | Some x, Some y => Some (x * 10 + y)%Z
  | _, _ => None
  end.

Definition number4 (a b c d : ascii) : option Z :=
  match number2 a b, number2 c d with
  | Some x, Some y => Some (x * 100 + y)%Z
  | _, _ => None
  end.

Definition iso_getTime (s : string) : number :=
  match s with
  | String y1 (String y2 (String y3 (String y4 (String "-"
      (String m1 (String m2 (String "-"
        (String d1 (String d2 EmptyString))))))))) =>
      match number4 y1 y2 y3 y4, number2 m1 m2, number2 d1 d2 with
      | Some y, Some m, Some d =>
          if ((1 <=? m) && (m <=? 12) && (1 <=? d)
              && (d <=? days_in_month y m))%Z
          then of_Z (days_from_civil y m d * 86400000)
          else NaN
      | _, _, _ => NaN
      end
  | _ => NaN
  end.

End WeeklyView.

(* ================================================================= *)
(** * String.prototype.toLowerCase

    Only the letters [A]..[Z] are mapped.  The outcome of comparing the
    result with ["male"] or ["female"] is the one of the full Unicode
    mapping, under which no other character becomes one of the letters of
    these two words. *)

Module JsString.

Definition lower (c : ascii) : ascii :=
  let n := N_of_ascii c in
  if ((65 <=? n) && (n <=? 90))%N then ascii_of_N (n + 32) else c.

Fixpoint toLowerCase (s : string) : string :=
  match s with
  | EmptyString => EmptyString
  | String c s' => String (lower c) (toLowerCase s')
  end.

End JsString.

(* ================================================================= *)
(** * app/demographic-view/page.tsx *)

Module DemographicView.

Import DemographicBreakdown.

(** A value of [maleAgeGroupMap] or [femaleAgeGroupMap]. *)
Record AgeGroupData : Type := mkAgeGroupData {
  g_impressions : number;
  g_clicks : number;
  g_conversions : number;
  g_ctr : number;
  g_conversion_rate : number
}.

(** An element of [maleAgeGroups] or [femaleAgeGroups]. *)
Record AgeGroupRow : Type := mkAgeGroupRow {
  row_age_group : string;
  data :> AgeGroupData
}.

Record Point : Type := mkPoint {
  label : string;
  value : number;
  color : string
}.

Record Result : Type := mkResult {
  maleClicks : number;
  maleSpend : number;
  maleRevenue : number;
  femaleClicks : number;
  femaleSpend : number;
  femaleRevenue : number;
  ageGroupSpend : list Point;
  ageGroupRevenue : list Point;
  maleAgeGroups : list AgeGroupRow;
  femaleAgeGroups : list AgeGroupRow
}.

(** The variables the two loops update. *)
Record State : Type := mkState {
  s_maleClicks : number;
  s_maleSpend : number;
  s_maleRevenue : number;
  s_femaleClicks : number;
  s_femaleSpend : number;
  s_femaleRevenue : number;
  ageGroupSpendMap : JsObject.object number;
  ageGroupRevenueMap : JsObject.object number;
  maleAgeGroupMap : JsObject.object AgeGroupData;
  femaleAgeGroupMap : JsObject.object AgeGroupData
}.

Definition init : State :=
  {| s_maleClicks := zero; s_maleSpend := zero; s_maleRevenue := zero;
     s_femaleClicks := zero; s_femaleSpend := zero; s_femaleRevenue := zero;
     ageGroupSpendMap := JsObject.empty;
     ageGroupRevenueMap := JsObject.empty;
     maleAgeGroupMap := JsObject.empty;
     femaleAgeGroupMap := JsObject.empty |}.

Definition audiencePercentage (breakdown : DemographicBreakdown.t) : number :=
  breakdown.(percentage_of_audience) / hundred.

Definition allocatedSpend (campaign : Campaign.t)
    (breakdown : DemographicBreakdown.t) : number :=
  campaign.(Campaign.spend) * audiencePercentage breakdown.

Definition allocatedRevenue (campaign : Campaign.t)
    (breakdown : DemographicBreakdown.t) : number :=
  campaign.(Campaign.revenue) * audiencePercentage breakdown.

(** [if (!m[k]) m[k] = 0]: a missing, zero or [NaN] entry becomes [0]. *)
Definition init_number (k : string) (m : JsObject.object number)
  : JsObject.object number :=
  match JsObject.get k m with
  | Some v => if truthy v then m else JsObject.set k zero m
  | None => JsObject.set k zero m
  end.

(** [m[k] += x]; a missing entry reads as [undefined], and
    [undefined + x] is [NaN]. *)
Definition add_number (k : string) (x : number) (m : JsObject.object number)
  : JsObject.object number :=
  match JsObject.get k m with
  | Some v => JsObject.set k (v + x) m
  | None => JsObject.set k NaN m
  end.

Definition zero_age_group : AgeGroupData :=
  {| g_impressions := zero; g_clicks := zero; g_conversions := zero;
     g_ctr := zero; g_conversion_rate := zero |}.

(** [if (!m[k]) m[k] = {...}] on a map of records: only a missing entry is
    created. *)
Definition init_age_group (k : string) (m : JsObject.object AgeGroupData)
  : JsObject.object AgeGroupData :=
  match JsObject.get k m with
  | Some _ => m
  | None => JsObject.set k zero_age_group m
  end.

Definition add_performance (d : AgeGroupData) (p : Performance)
  : AgeGroupData :=
  {| g_impressions := d.(g_impressions) + p.(impressions);
     g_clicks := d.(g_clicks) + p.(clicks);
     g_conversions := d.(g_conversions) + p.(conversions);
     g_ctr := d.(g_ctr);
     g_conversion_rate := d.(g_conversion_rate) |}.

(** The three [+=] on [m[k]], which the initialisation before them has
    made present. *)
Definition add_age_group (k : string) (p : Performance)
    (m : JsObject.object AgeGroupData) : JsObject.object AgeGroupData :=
  match JsObject.get k m with
  | Some d => JsObject.set k (add_performance d p) m
  | None => m
  end.

Definition is_male (gender : string) : bool :=
  String.eqb (JsString.toLowerCase gender) "male".

Definition is_female (gender : string) : bool :=
  String.eqb (JsString.toLowerCase gender) "female".

(** Body of the inner [forEach]. *)
Definition add_breakdown (campaign : Campaign.t) (st : State)
    (breakdown : DemographicBreakdown.t) : State :=
  let age_group := breakdown.(age_group) in
  let gender := breakdown.(gender) in
  let performance := breakdown.(performance) in
  let allocatedSpend := allocatedSpend campaign breakdown in
  let allocatedRevenue := allocatedRevenue campaign breakdown in
  let spendMap := init_number age_group st.(ageGroupSpendMap) in
  let revenueMap := init_number age_group st.(ageGroupRevenueMap) in
  if is_male gender then
    {| s_maleClicks := st.(s_maleClicks) + performance.(clicks);
       s_maleSpend := st.(s_maleSpend) + allocatedSpend;
       s_maleRevenue := st.(s_maleRevenue) + allocatedRevenue;
       s_femaleClicks := st.(s_femaleClicks);
       s_femaleSpend := st.(s_femaleSpend);
       s_femaleRevenue := st.(s_femaleRevenue);
       ageGroupSpendMap := add_number age_group allocatedSpend spendMap;
       ageGroupRevenueMap := add_number age_group allocatedRevenue revenueMap;
       maleAgeGroupMap :=
         add_age_group age_group performance
           (init_age_group age_group st.(maleAgeGroupMap));
       femaleAgeGroupMap := st.(femaleAgeGroupMap) |}
  else if is_female gender then
    {| s_maleClicks := st.(s_maleClicks);
       s_maleSpend := st.(s_maleSpend);
       s_maleRevenue := st.(s_maleRevenue);
       s_femaleClicks := st.(s_femaleClicks) + performance.(clicks);
       s_femaleSpend := st.(s_femaleSpend) + allocatedSpend;
       s_femaleRevenue := st.(s_femaleRevenue) + allocatedRevenue;
       ageGroupSpendMap := add_number age_group allocatedSpend spendMap;
       ageGroupRevenueMap := add_number age_group allocatedRevenue revenueMap;
       maleAgeGroupMap := st.(maleAgeGroupMap);
       femaleAgeGroupMap :=
         add_age_group age_group performance
           (init_age_group age_group st.(femaleAgeGroupMap)) |}
  else
    {| s_maleClicks := st.(s_maleClicks);
       s_maleSpend := st.(s_maleSpend);
       s_maleRevenue := st.(s_maleRevenue);
       s_femaleClicks := st.(s_femaleClicks);
       s_femaleSpend := st.(s_femaleSpend);
       s_femaleRevenue := st.(s_femaleRevenue);
       ageGroupSpendMap := add_number age_group allocatedSpend spendMap;
       ageGroupRevenueMap := add_number age_group allocatedRevenue revenueMap;
       maleAgeGroupMap := st.(maleAgeGroupMap);
       femaleAgeGroupMap := st.(femaleAgeGroupMap) |}.

Definition add_campaign (st : State) (campaign : Campaign.t) : State :=
  fold_left (add_breakdown campaign) campaign.(Campaign.demographic_breakdown)
    st.

Definition run (campaigns : list Campaign.t) : State :=
  fold_left add_campaign campaigns init.

(** [data.ctr] and [data.conversion_rate], from the summed counters. *)
Definition with_rates (data : AgeGroupData) : AgeGroupData :=
  {| g_impressions := data.(g_impressions);
     g_clicks := data.(g_clicks);
     g_conversions := data.(g_conversions);
     g_ctr := if data.(g_impressions) >? zero
              then (data.(g_clicks) / data.(g_impressions)) * hundred
              else zero;
     g_conversion_rate :=
       if data.(g_clicks) >? zero
       then (data.(g_conversions) / data.(g_clicks)) * hundred
       else zero |}.

(** The loop over [Object.keys(m)] rewrites the record of every property
    in place. *)
Definition rate_all (m : JsObject.object AgeGroupData)
  : JsObject.object AgeGroupData :=
  map (fun kv => (fst kv, with_rates (snd kv))) m.

Definition points (colour : string) (m : JsObject.object number) : list Point :=
  map (fun kv => {| label := fst kv; value := snd kv; color := colour |})
    (JsObject.entries m).

Definition age_rows (m : JsObject.object AgeGroupData) : list AgeGroupRow :=
  map (fun kv => {| row_age_group := fst kv; data := snd kv |})
    (JsObject.entries m).

Definition demographicMetrics (campaigns : campaigns_opt) : Result :=
  match campaigns with
  | None =>
      {| maleClicks := zero; maleSpend := zero; maleRevenue := zero;
         femaleClicks := zero; femaleSpend := zero; femaleRevenue := zero;
         ageGroupSpend := []; ageGroupRevenue := [];
         maleAgeGroups := []; femaleAgeGroups := [] |}
  | Some campaigns =>
      let st := run campaigns in
      {| maleClicks := st.(s_maleClicks);
         maleSpend := st.(s_maleSpend);
         maleRevenue := st.(s_maleRevenue);
         femaleClicks := st.(s_femaleClicks);
         femaleSpend := st.(s_femaleSpend);
         femaleRevenue := st.(s_femaleRevenue);
         ageGroupSpend := points "#3B82F6" st.(ageGroupSpendMap);
         ageGroupRevenue := points "#10B981" st.(ageGroupRevenueMap);
         maleAgeGroups := age_rows (rate_all st.(maleAgeGroupMap));
         femaleAgeGroups := age_rows (rate_all st.(femaleAgeGroupMap)) |}
  end.

End DemographicView.

(* ================================================================= *)
(** * Math.max and Math.min *)

Module JsMath.

(** One step of [Math.max]: [NaN] wins, otherwise the larger value. *)
Definition max2 (highest v : number) : number :=
  match highest, v with
  | NaN, _ | _, NaN => NaN
  | _, _ => if v >? highest then v else highest
  end.

Definition min2 (lowest v : number) : number :=
  match lowest, v with
  | NaN, _ | _, NaN => NaN
  | _, _ => if lowest >? v then v else lowest
  end.

(** [Math.max(...values)]; without values it is [-Infinity]. *)
Definition max (values : list number) : number :=
  fold_left max2 values NegInfinity.

(** [Math.min(...values)]; without values it is [Infinity]. *)
Definition min (values : list number) : number :=
  fold_left min2 values PosInfinity.

End JsMath.

(** [array.map((item, index) => f(item, index))] *)
Fixpoint map_index {A B : Type} (f : A -> nat -> B) (l : list A) (index : nat)
  : list B :=
  match l with
  | [] => []
  | item :: l' => f item index :: map_index f l' (S index)
  end.

(* ================================================================= *)
(** * src/components/ui/line-chart.tsx

    The coordinates of the points; the SVG paths and the formatted labels
    are strings built from them and are left out. *)

Module LineChart.

Record LineChartDataPoint : Type := mkData {
  label : string;
  value : number;
  color : option string
}.

(** An element of [points]. *)
Record Point : Type := mkPoint {
  x : number;
  y : number;
  p_value : number;
  p_label : string
}.

(** What is drawn: the points and the three values of the y axis. *)
Record Chart : Type := mkChart {
  points : list Point;
  axis_top : number;
  axis_middle : number;
  axis_bottom : number
}.

Definition point (length : nat) (minValue valueRange : number)
    (item : LineChartDataPoint) (index : nat) : Point :=
  {| x := (Number.of_Z (Z.of_nat index)
           / (Number.of_Z (Z.of_nat length) - one)) * hundred;
     y := if valueRange >? zero
          then hundred - ((item.(value) - minValue) / valueRange) * hundred
          else Number.of_Z 50;
     p_value := item.(value);
     p_label := item.(label) |}.

(** [None] stands for the panel that says that no data is available. *)
Definition chart (data : list LineChartDataPoint) : option Chart :=
  match data with
  | [] => None
  | _ =>
      let maxValue := JsMath.max (map value data) in
      let minValue := JsMath.min (map value data) in
      let valueRange := maxValue - minValue in
      Some {| points :=
                map_index (point (List.length data) minValue valueRange)
                  data 0;
              axis_top := maxValue;
              axis_middle := minValue + valueRange * of_decimal 5 10;
              axis_bottom := minValue |}
  end.

(** The series of the weekly page, as the chart receives it. *)
Definition of_weekly (p : WeeklyView.Point) : LineChartDataPoint :=
  {| label := p.(WeeklyView.label);
     value := p.(WeeklyView.value);
     color := Some p.(WeeklyView.color) |}.

End LineChart.

(* ================================================================= *)
(** * src/components/ui/heat-map.tsx

    The circles that the map effect draws: centre, radius and hue.  The
    map itself, its tiles and the popups belong to the Leaflet library. *)

Module HeatMap.

Record HeatMapDataPoint : Type := mkData {
  region : string;
  country : string;
  value : number;
  revenue : option number;
  spend : option number;
  impressions : option number;
  clicks : option number;
  conversions : option number;
  lat : option number;
  lng : option number
}.

(** [valueKey] *)
Inductive ValueKey : Type :=
| key_revenue | key_spend | key_impressions | key_clicks | key_conversions.

(** [UAE_CITY_COORDINATES] *)
Definition UAE_CITY_COORDINATES : JsObject.object (number * number) :=
  [ ("Dubai", (of_decimal 252048 10000, of_decimal 552708 10000));
    ("Sharjah", (of_decimal 253460 10000, of_decimal 554200 10000));
    ("Abu Dhabi", (of_decimal 244539 10000, of_decimal 543773 10000));
    ("Al Ain", (of_decimal 241302 10000, of_decimal 558023 10000));
    ("Ras Al Khaimah", (of_decimal 256741 10000, of_decimal 559804 10000));
    ("Fujairah", (of_decimal 251288 10000, of_decimal 563265 10000));
    ("Ajman", (of_decimal 254052 10000, of_decimal 555136 10000));
    ("Umm Al Quwain", (of_decimal 255653 10000, of_decimal 555533 10000)) ].

(** [item[valueKey]] *)
Definition field (valueKey : ValueKey) (item : HeatMapDataPoint)
  : option number :=
  match valueKey with
  | key_revenue => item.(revenue)
  | key_spend => item.(spend)
  | key_impressions => item.(impressions)
  | key_clicks => item.(clicks)
  | key_conversions => item.(conversions)
  end.

(** [item[valueKey] || item.value] *)
Definition value_of (valueKey : ValueKey) (item : HeatMapDataPoint) : number :=
  match field valueKey item with
  | Some v => or_else v item.(value)
  | None => item.(value)
  end.

(** [UAE_CITY_COORDINATES[item.region] || [25.0, 55.0]] *)
Definition coordinates_of (item : HeatMapDataPoint) : number * number :=
  match JsObject.get item.(region) UAE_CITY_COORDINATES with
  | Some c => c
  | None => (Number.of_Z 25, Number.of_Z 55)
  end.

(** The options of a circle that depend on the data. *)
Record Circle : Type := mkCircle {
  coordinates : number * number;
  radius : number;
  hue : number
}.

Definition normalizedValue (minValue valueRange v : number) : number :=
  if valueRange >? zero then (v - minValue) / valueRange
  else of_decimal 5 10.

Definition circle (valueKey : ValueKey) (minValue valueRange : number)
    (item : HeatMapDataPoint) : Circle :=
  let n := normalizedValue minValue valueRange (value_of valueKey item) in
  {| coordinates := coordinates_of item;
     radius := Number.of_Z 5000 + n * Number.of_Z 45000;
     hue := match valueKey with
            | key_revenue => Number.of_Z 120 * n
            | _ => Number.of_Z 240 - Number.of_Z 120 * n
            end |}.

(** The circles of the effect; it returns at once when [data] is empty. *)
Definition circles (valueKey : ValueKey) (data : list HeatMapDataPoint)
  : list Circle :=
  match data with
  | [] => []
  | _ =>
      let values := map (value_of valueKey) data in
      let maxValue := JsMath.max values in
      let minValue := JsMath.min values in
      let valueRange := maxValue - minValue in
      map (circle valueKey minValue valueRange) data
  end.

(** A group of the region page, as the map receives it. *)
Definition of_region (d : RegionView.RegionDatum) : HeatMapDataPoint :=
  let r := RegionView.perf (RegionView.group d) in
  {| region := r.(RegionalPerformance.region);
     country := r.(RegionalPerformance.country);
     value := d.(RegionView.value);
     revenue := Some r.(RegionalPerformance.revenue);
     spend := Some r.(RegionalPerformance.spend);
     impressions := Some r.(RegionalPerformance.impressions);
     clicks := Some r.(RegionalPerformance.clicks);
     conversions := Some r.(RegionalPerformance.conversions);
     lat := d.(RegionView.lat);
     lng := d.(RegionView.lng) |}.

(** [valueKey={selectedValueKey}] *)
Definition of_selected (sel : RegionView.ValueKey) : ValueKey :=
  match sel with
  | RegionView.key_revenue => key_revenue
  | RegionView.key_spend => key_spend
  end.

End HeatMap.

(** Bounds on a number: it is finite and lies between [lo] and [hi]. *)
Definition between (lo hi : Z) (a : number) : Prop :=
  match a with
  | Fin q => (Q2Qc (inject_Z lo) <= q /\ q <= Q2Qc (inject_Z hi))%Qc
  | _ => False
  end.

(* ================================================================= *)
(** * Vocabulary of the specification *)

(** ** Metric recomputation (section 4.1 of the specification) *)

Module Metric.

Definition ctr (impressions clicks : number) : number :=
  if impressions >? zero then clicks / impressions * hundred else zero.

Definition conversion_rate (clicks conversions : number) : number :=
  if clicks >? zero then conversions / clicks * hundred else zero.

Definition cpc (spend clicks : number) : number :=
  if clicks >? zero then spend / clicks else zero.

Definition cpa (spend conversions : number) : number :=
  if conversions >? zero then spend / conversions else zero.

Definition roas (spend revenue : number) : number :=
  if spend >? zero then revenue / spend else zero.

End Metric.

(** ** Base counters of a group *)

Record Counters : Type := mkCounters {
  c_impressions : number;
  c_clicks : number;
  c_conversions : number;
  c_spend : number;
  c_revenue : number
}.

Definition counters_add (a b : Counters) : Counters :=
  {| c_impressions := a.(c_impressions) + b.(c_impressions);
     c_clicks := a.(c_clicks) + b.(c_clicks);
     c_conversions := a.(c_conversions) + b.(c_conversions);
     c_spend := a.(c_spend) + b.(c_spend);
     c_revenue := a.(c_revenue) + b.(c_revenue) |}.

Definition counters_zero : Counters :=
  {| c_impressions := zero; c_clicks := zero; c_conversions := zero;
     c_spend := zero; c_revenue := zero |}.

(** Sum of two keyed collections at one key: a group present on one side
    only is kept as it is. *)
Definition merge_with {A : Type} (f : A -> A -> A) (x y : option A)
  : option A :=
  match x, y with
  | Some a, Some b => Some (f a b)
  | Some a, None => Some a
  | None, y => y
  end.

(** Sum of the values [l] onto [a], when there is anything to sum. *)
Definition merge_sum {A : Type} (f : A -> A -> A) (l : list A) (a : option A)
  : option A :=
  fold_left (fun o c => merge_with f o (Some c)) l a.

(** [a + b + c + ...] from [0], in list order. *)
Definition sum (l : list number) : number := fold_left add l zero.

(** Keys in the order of their first occurrence. *)
Definition first_seen (keys : list string) : list string :=
  fold_left
    (fun seen k => if existsb (String.eqb k) seen then seen else seen ++ [k])
    keys [].

(** The capital of a small letter. *)
Definition capital (c : ascii) : ascii :=
  let n := N_of_ascii c in
  if ((97 <=? n) && (n <=? 122))%N then ascii_of_N (n - 32) else c.

(** Comparison of a string with a word in small letters, ignoring the case
    of the letters: each character is the letter of the word or its
    capital. *)
Fixpoint matches_ignoring_case (s word : string) : bool :=
  match s, word with
  | EmptyString, EmptyString => true
  | String a s', String b word' =>
      (Ascii.eqb a b || Ascii.eqb a (capital b))
      && matches_ignoring_case s' word'
  | _, _ => false
  end.

(** ** Group-by with a dictionary

    The regional and the weekly loop have one shape: the first entry of a
    key creates the group, every later one is folded into it. *)

Section GroupBy.
Context {E G : Type}.
Variable key : E -> string.
Variable create : E -> G.
Variable fold_in : G -> E -> G.

Definition group_add (m : JsObject.object G) (e : E) : JsObject.object G :=
  match JsObject.get (key e) m with
  | None => JsObject.set (key e) (create e) m
  | Some g => JsObject.set (key e) (fold_in g e) m
  end.

(** What the loop does to the group of one key. *)
Definition group_step (acc : option G) (e : E) : option G :=
  Some (match acc with None => create e | Some g => fold_in g e end).

End GroupBy.

Module RegionSpec.
Import RegionalPerformance RegionView.

Definition all_regions (campaigns : list Campaign.t)
  : list RegionalPerformance.t :=
  flat_map Campaign.regional_performance campaigns.

(** The regional entries folded into the group of key [k]. *)
Definition contributing (k : string) (campaigns : list Campaign.t)
  : list RegionalPerformance.t :=
  filter (fun r => String.eqb k (regionKey r)) (all_regions campaigns).

Definition counters (r : RegionalPerformance.t) : Counters :=
  {| c_impressions := r.(impressions); c_clicks := r.(clicks);
     c_conversions := r.(conversions); c_spend := r.(spend);
     c_revenue := r.(revenue) |}.

(** The five derived metrics are the formulas of section 4.1 on the
    record's own counters. *)
Definition derived_ok (r : RegionalPerformance.t) : Prop :=
  r.(ctr) = Metric.ctr r.(impressions) r.(clicks) /\
  r.(conversion_rate) = Metric.conversion_rate r.(clicks) r.(conversions) /\
  r.(cpc) = Metric.cpc r.(spend) r.(clicks) /\
  r.(cpa) = Metric.cpa r.(spend) r.(conversions) /\
  r.(roas) = Metric.roas r.(spend) r.(revenue).

(** The group of key [k] in a result. *)
Definition group_of (k : string) (res : Result) : option RegionDatum :=
  find (fun d : RegionDatum => String.eqb k (regionKey d)) res.(regionalData).

Definition counters_of (k : string) (res : Result) : option Counters :=
  option_map (fun d : RegionDatum => counters d) (group_of k res).

(** What the reducer of [topRegion] has established after the groups
    [l]: without a top no group has a positive revenue; a top has a
    positive revenue, every group before it has a lower one and no group
    after it a higher one. *)
Definition top_invariant (l : list RegionDatum) (top : option RegionDatum)
  : Prop :=
  match top with
  | None => forall g : RegionDatum, In g l -> (revenue g >? zero) = false
  | Some t =>
      (revenue t >? zero) = true /\
      exists before after,
        l = before ++ t :: after /\
        (forall g : RegionDatum, In g before ->
           (revenue t >? revenue g) = true \/ revenue g = NaN) /\
        (forall g : RegionDatum, In g after ->
           (revenue g >? revenue t) = false)
  end.
End RegionSpec.

Module WeeklySpec.
Import WeeklyPerformance WeeklyView.

Definition all_weeks (campaigns : list Campaign.t)
  : list WeeklyPerformance.t :=
  flat_map Campaign.weekly_performance campaigns.

Definition counters (w : WeeklyPerformance.t) : Counters :=
  {| c_impressions := w.(impressions); c_clicks := w.(clicks);
     c_conversions := w.(conversions); c_spend := w.(spend);
     c_revenue := w.(revenue) |}.

Definition group_of (k : string) (res : Result)
  : option WeeklyPerformance.t :=
  match res.(weeklyData) with
  | Some data => find (fun w => String.eqb k (weekKey w)) data
  | None => None
  end.

Definition counters_of (k : string) (res : Result) : option Counters :=
  option_map counters (group_of k res).

(** [a] is not later than [b]; both are dates. *)
Definition time_le (a b : number) : Prop :=
  match a, b with
  | Fin x, Fin y => (x <= y)%Qc
  | _, _ => False
  end.
End WeeklySpec.

Module DeviceSpec.
Import DevicePerformance DeviceView.

Definition all_devices (campaigns : list Campaign.t)
  : list (Campaign.t * DevicePerformance.t) :=
  flat_map (fun c => map (pair c) c.(Campaign.device_performance)) campaigns.

Definition counters (d : DeviceData) : Counters :=
  {| c_impressions := d.(d_impressions); c_clicks := d.(d_clicks);
     c_conversions := d.(d_conversions); c_spend := d.(d_spend);
     c_revenue := d.(d_revenue) |}.

Definition is_mobile (device : DevicePerformance.t) : bool :=
  String.eqb device.(DevicePerformance.device) "Mobile".

Definition is_desktop (device : DevicePerformance.t) : bool :=
  String.eqb device.(DevicePerformance.device) "Desktop".

Definition known (device : DevicePerformance.t) : bool :=
  is_mobile device || is_desktop device.

Definition entry_counters (device : DevicePerformance.t) : Counters :=
  {| c_impressions := device.(impressions); c_clicks := device.(clicks);
     c_conversions := device.(conversions); c_spend := device.(spend);
     c_revenue := device.(revenue) |}.

(** The row shows the entry [device] of [campaign]. *)
Definition row_of_entry (cd : Campaign.t * DevicePerformance.t) (r : Row)
  : Prop :=
  let (campaign, device) := cd in
  r.(campaignName) = campaign.(Campaign.name) /\
  r.(r_device) = device.(DevicePerformance.device) /\
  r.(r_impressions) = device.(impressions) /\
  r.(r_clicks) = device.(clicks) /\
  r.(r_conversions) = device.(conversions) /\
  r.(r_spend) = device.(spend) /\
  r.(r_revenue) = device.(revenue) /\
  r.(r_ctr) = device.(ctr) /\
  r.(r_conversion_rate) = device.(conversion_rate) /\
  ((device.(spend) >? zero) = true ->
   r.(r_roas) = device.(revenue) / device.(spend)) /\
  ((device.(spend) >? zero) = false -> r.(r_roas) = zero).

(** The campaign without the entries of other devices. *)
Definition only_known (c : Campaign.t) : Campaign.t :=
  {| Campaign.name := c.(Campaign.name);
     Campaign.spend := c.(Campaign.spend);
     Campaign.revenue := c.(Campaign.revenue);
     Campaign.regional_performance := c.(Campaign.regional_performance);
     Campaign.device_performance :=
       filter known c.(Campaign.device_performance);
     Campaign.weekly_performance := c.(Campaign.weekly_performance);
     Campaign.demographic_breakdown := c.(Campaign.demographic_breakdown) |}.
End DeviceSpec.

Module DemographicSpec.
Import DemographicBreakdown DemographicView.

Definition all_breakdowns (campaigns : list Campaign.t)
  : list (Campaign.t * DemographicBreakdown.t) :=
  flat_map (fun c => map (pair c) c.(Campaign.demographic_breakdown))
    campaigns.

(** Share of a campaign total attributed to a segment. *)
Definition allocation (total : number) (b : DemographicBreakdown.t)
  : number :=
  total * (b.(percentage_of_audience) / hundred).

Definition of_gender (word : string)
    (l : list (Campaign.t * DemographicBreakdown.t))
  : list (Campaign.t * DemographicBreakdown.t) :=
  filter (fun cb => matches_ignoring_case (snd cb).(gender) word) l.

Definition of_age_group (k : string)
    (l : list (Campaign.t * DemographicBreakdown.t))
  : list (Campaign.t * DemographicBreakdown.t) :=
  filter (fun cb => String.eqb k (snd cb).(age_group)) l.

(** Allocated total of an age group; no total without a segment. *)
Definition allocated (total : Campaign.t -> number) (k : string)
    (campaigns : list Campaign.t) : option number :=
  match of_age_group k (all_breakdowns campaigns) with
  | [] => None
  | l => Some (sum (map (fun cb => allocation (total (fst cb)) (snd cb)) l))
  end.

Definition point_of (k : string) (points : list Point) : option number :=
  option_map value (find (fun p => String.eqb k p.(label)) points).

(** Raw counters of an age group row. *)
Definition raw (r : AgeGroupRow) : number * number * number :=
  (r.(g_impressions), r.(g_clicks), r.(g_conversions)).

Definition raw_add (a b : number * number * number)
  : number * number * number :=
  let '(i, c, v) := a in
  let '(i', c', v') := b in
  (i + i', c + c', v + v').

Definition raw_of_data (d : AgeGroupData) : number * number * number :=
  (d.(g_impressions), d.(g_clicks), d.(g_conversions)).

Definition raw_of_entry (cb : Campaign.t * DemographicBreakdown.t)
  : number * number * number :=
  ((snd cb).(performance).(impressions), (snd cb).(performance).(clicks),
   (snd cb).(performance).(conversions)).

Definition row_of (k : string) (rows : list AgeGroupRow)
  : option (number * number * number) :=
  option_map raw (find (fun r => String.eqb k r.(row_age_group)) rows).

(** Every number of the demographic input is finite. *)
Definition finite_input (c : Campaign.t) : Prop :=
  finite c.(Campaign.spend) /\ finite c.(Campaign.revenue) /\
  Forall (fun b => finite b.(percentage_of_audience))
    c.(Campaign.demographic_breakdown).
End DemographicSpec.

(** ** Results on an empty dataset *)

Module EmptySpec.

Definition regional : RegionView.Result :=
  {| RegionView.totals :=
       {| RegionView.totalRevenue := zero; RegionView.totalSpend := zero;
          RegionView.totalImpressions := zero; RegionView.totalClicks := zero;
          RegionView.totalConversions := zero |};
     RegionView.regionalData := [];
     RegionView.topRegion := None |}.

Definition weekly (weeklyData : option (list WeeklyPerformance.t))
  : WeeklyView.Result :=
  {| WeeklyView.totals :=
       {| WeeklyView.totalRevenue := zero; WeeklyView.totalSpend := zero;
          WeeklyView.totalImpressions := zero; WeeklyView.totalClicks := zero;
          WeeklyView.totalConversions := zero |};
     WeeklyView.revenueByWeek := [];
     WeeklyView.spendByWeek := [];
     WeeklyView.impressionsByWeek := [];
     WeeklyView.clicksByWeek := [];
     WeeklyView.weeklyData := weeklyData |}.

Definition demographic : DemographicView.Result :=
  {| DemographicView.maleClicks := zero; DemographicView.maleSpend := zero;
     DemographicView.maleRevenue := zero;
     DemographicView.femaleClicks := zero;
     DemographicView.femaleSpend := zero;
     DemographicView.femaleRevenue := zero;
     DemographicView.ageGroupSpend := [];
     DemographicView.ageGroupRevenue := [];
     DemographicView.maleAgeGroups := [];
     DemographicView.femaleAgeGroups := [] |}.

(** A device bucket without any entry, with the given share of traffic. *)
Definition bucket (share : number) : DeviceView.DeviceData :=
  {| DeviceView.d_impressions := zero; DeviceView.d_clicks := zero;
     DeviceView.d_conversions := zero; DeviceView.d_spend := zero;
     DeviceView.d_revenue := zero; DeviceView.d_ctr := zero;
     DeviceView.d_conversion_rate := zero;
     DeviceView.percentage_of_traffic := share;
     DeviceView.campaignCount := zero |}.

(** The two points of a device chart, both at [0]. *)
Definition flat_chart : list DeviceView.Point :=
  [ {| DeviceView.label := "Mobile"; DeviceView.value := zero;
       DeviceView.color := "#3B82F6" |};
    {| DeviceView.label := "Desktop"; DeviceView.value := zero;
       DeviceView.color := "#10B981" |} ].

(** The device result for an absent dataset. *)
Definition device_absent : DeviceView.Result :=
  {| DeviceView.mobile := bucket zero;
     DeviceView.desktop := bucket zero;
     DeviceView.deviceComparison := [];
     DeviceView.performanceByCampaign := [];
     DeviceView.roasComparison := [];
     DeviceView.conversionRateComparison := [] |}.

(** The device result for a dataset without campaigns. *)
Definition device_empty : DeviceView.Result :=
  {| DeviceView.mobile := bucket NaN;
     DeviceView.desktop := bucket NaN;
     DeviceView.deviceComparison := flat_chart;
     DeviceView.performanceByCampaign := [];
     DeviceView.roasComparison := flat_chart;
     DeviceView.conversionRateComparison := flat_chart |}.

End EmptySpec.

(** ** Sample datasets *)

Module Samples.

Definition region (name country : string)
    (impressions clicks conversions spend revenue : Z)
    (ctr conversion_rate cpc cpa roas : number) : RegionalPerformance.t :=
  {| RegionalPerformance.region := name;
     RegionalPerformance.country := country;
     RegionalPerformance.impressions := of_Z impressions;
     RegionalPerformance.clicks := of_Z clicks;
     RegionalPerformance.conversions := of_Z conversions;
     RegionalPerformance.spend := of_Z spend;
     RegionalPerformance.revenue := of_Z revenue;
     RegionalPerformance.ctr := ctr;
     RegionalPerformance.conversion_rate := conversion_rate;
     RegionalPerformance.cpc := cpc;
     RegionalPerformance.cpa := cpa;
     RegionalPerformance.roas := roas |}.

Definition campaign (name : string) (spend revenue : Z)
    (regions : list RegionalPerformance.t)
    (devices : list DevicePerformance.t)
    (weeks : list WeeklyPerformance.t)
    (segments : list DemographicBreakdown.t) : Campaign.t :=
  {| Campaign.name := name;
     Campaign.spend := of_Z spend;
     Campaign.revenue := of_Z revenue;
     Campaign.regional_performance := regions;
     Campaign.device_performance := devices;
     Campaign.weekly_performance := weeks;
     Campaign.demographic_breakdown := segments |}.

(** One regional entry whose stored rates are rounded to two decimals:
    3000 impressions and 100 clicks are stored with a [ctr] of 3.33. *)
Definition rounded : Campaign.t :=
  campaign "Summer" 90 250
    [ region "Dubai" "UAE" 3000 100 7 90 250
        (of_decimal 333 100) (of_Z 7) (of_decimal 9 10)
        (of_decimal 1286 100) (of_decimal 278 100) ]
    [] [] [].

(** The end-to-end example of the specification: two campaigns with one
    entry each for Dubai, UAE. *)
Definition dubai_1 : Campaign.t :=
  campaign "First" 100 300
    [ region "Dubai" "UAE" 1000 50 5 100 300
        (of_Z 5) (of_Z 10) (of_Z 2) (of_Z 20) (of_Z 3) ]
    [] [] [].

Definition dubai_2 : Campaign.t :=
  campaign "Second" 200 600
    [ region "Dubai" "UAE" 2000 100 10 200 600
        (of_Z 5) (of_Z 10) (of_Z 2) (of_Z 20) (of_Z 3) ]
    [] [] [].

(** Two regions with the same revenue 500, and a third one below. *)
Definition tie : Campaign.t :=
  campaign "Tie" 300 1400
    [ region "Sharjah" "UAE" 1000 50 5 100 500
        (of_Z 5) (of_Z 10) (of_Z 2) (of_Z 20) (of_Z 5);
      region "Dubai" "UAE" 1000 50 5 100 500
        (of_Z 5) (of_Z 10) (of_Z 2) (of_Z 20) (of_Z 5);
      region "Ajman" "UAE" 1000 50 5 100 400
        (of_Z 5) (of_Z 10) (of_Z 2) (of_Z 20) (of_Z 4) ]
    [] [] [].

(** Two regions without any revenue. *)
Definition unpaid : Campaign.t :=
  campaign "Unpaid" 200 0
    [ region "Dubai" "UAE" 1000 50 0 100 0
        (of_Z 5) (of_Z 0) (of_Z 2) (of_Z 0) (of_Z 0);
      region "Ajman" "UAE" 1000 50 0 100 0
        (of_Z 5) (of_Z 0) (of_Z 2) (of_Z 0) (of_Z 0) ]
    [] [] [].

Definition device (label : string)
    (impressions clicks conversions spend revenue : Z) : DevicePerformance.t :=
  {| DevicePerformance.device := label;
     DevicePerformance.impressions := of_Z impressions;
     DevicePerformance.clicks := of_Z clicks;
     DevicePerformance.conversions := of_Z conversions;
     DevicePerformance.spend := of_Z spend;
     DevicePerformance.revenue := of_Z revenue;
     DevicePerformance.ctr := of_Z 5;
     DevicePerformance.conversion_rate := of_Z 10 |}.

(** A campaign seen on a phone, a tablet and a desktop computer. *)
Definition three_devices : Campaign.t :=
  campaign "Devices" 600 1500
    [] [ device "Mobile" 1000 50 5 100 300;
         device "Tablet" 4000 200 20 0 700;
         device "Desktop" 3000 150 15 300 600 ] [] [].

Definition week (week_start week_end : string)
    (impressions clicks conversions spend revenue : Z) : WeeklyPerformance.t :=
  {| WeeklyPerformance.week_start := week_start;
     WeeklyPerformance.week_end := week_end;
     WeeklyPerformance.impressions := of_Z impressions;
     WeeklyPerformance.clicks := of_Z clicks;
     WeeklyPerformance.conversions := of_Z conversions;
     WeeklyPerformance.spend := of_Z spend;
     WeeklyPerformance.revenue := of_Z revenue |}.

(** Three campaigns whose weeks arrive as February, January, March. *)
Definition february : Campaign.t :=
  campaign "February" 100 300
    [] [] [ week "2024-02-01" "2024-02-07" 1000 50 5 100 300 ] [].

Definition january : Campaign.t :=
  campaign "January" 200 500
    [] [] [ week "2024-01-01" "2024-01-07" 2000 80 8 200 500 ] [].

Definition march : Campaign.t :=
  campaign "March" 300 900
    [] [] [ week "2024-03-01" "2024-03-07" 3000 90 9 300 900 ] [].

Definition segment (age_group gender : string)
    (percentage impressions clicks conversions : Z) : DemographicBreakdown.t :=
  {| DemographicBreakdown.age_group := age_group;
     DemographicBreakdown.gender := gender;
     DemographicBreakdown.percentage_of_audience := of_Z percentage;
     DemographicBreakdown.performance :=
       {| DemographicBreakdown.impressions := of_Z impressions;
          DemographicBreakdown.clicks := of_Z clicks;
          DemographicBreakdown.conversions := of_Z conversions |} |}.

(** The allocation example of the specification: a spend of 1000 and a
    revenue of 2000 over two segments of 60 and 40 per cent. *)
Definition audience : Campaign.t :=
  campaign "Audience" 1000 2000
    [] [] []
    [ segment "18-24" "Male" 60 5000 200 20;
      segment "25-34" "Female" 40 3000 150 10 ].

(** Segments of both genders, of another one, and in capitals. *)
Definition mixed : Campaign.t :=
  campaign "Mixed" 500 800
    [] [] []
    [ segment "18-24" "MALE" 30 1000 40 4;
      segment "18-24" "female" 20 2000 60 6;
      segment "25-34" "Other" 50 4000 90 9 ].

(** Two campaigns that share a region, a week and an age group. *)
Definition spring : Campaign.t :=
  campaign "Spring" 1000 2000
    [ region "Dubai" "UAE" 1000 50 5 100 300
        (of_Z 5) (of_Z 10) (of_Z 2) (of_Z 20) (of_Z 3) ]
    [ device "Mobile" 1000 50 5 100 300 ]
    [ week "2024-03-04" "2024-03-10" 1000 50 5 100 300 ]
    [ segment "18-24" "Male" 60 5000 200 20;
      segment "25-34" "Female" 40 3000 150 10 ].

Definition autumn : Campaign.t :=
  campaign "Autumn" 500 800
    [ region "Dubai" "UAE" 2000 100 10 200 600
        (of_Z 5) (of_Z 10) (of_Z 2) (of_Z 20) (of_Z 3);
      region "Ajman" "UAE" 500 10 1 50 60
        (of_Z 2) (of_Z 10) (of_Z 5) (of_Z 50) (of_decimal 12 10) ]
    [ device "Mobile" 2000 100 10 200 600;
      device "Desktop" 3000 150 15 300 600 ]
    [ week "2024-03-04" "2024-03-10" 2000 100 10 200 600 ]
    [ segment "18-24" "male" 30 1000 40 4;
      segment "18-24" "Female" 70 2000 60 6 ].

End Samples.

(** ** Counting *)

(** The number [n] of entries folded into a group. *)
Definition of_nat (n : nat) : number := of_Z (Z.of_nat n).

Module MoreSamples.

(** Two weeks that start on the same day and end on different days, met
    after a later week. *)
Definition overlapping : Campaign.t :=
  Samples.campaign "Overlap" 600 1800
    [] []
    [ Samples.week "2024-03-11" "2024-03-17" 3000 90 9 300 900;
      Samples.week "2024-03-04" "2024-03-17" 2000 80 8 200 500;
      Samples.week "2024-03-04" "2024-03-10" 1000 50 5 100 300 ]
    [].

(** Entries of devices that are neither phones nor desktop computers. *)
Definition tablets_only : Campaign.t :=
  Samples.campaign "Tablets" 300 700
    [] [ Samples.device "Tablet" 4000 200 20 100 700;
         Samples.device "mobile" 1000 50 5 200 0 ] [] [].

(** A series that stays at 7. *)
Definition level : list LineChart.LineChartDataPoint :=
  [ {| LineChart.label := "Week 1"; LineChart.value := of_Z 7;
       LineChart.color := None |};
    {| LineChart.label := "Week 2"; LineChart.value := of_Z 7;
       LineChart.color := None |} ].

End MoreSamples.

(* ================================================================= *)
(** * Properties *)

(** ** Arithmetic of numbers *)

(** Equations between computed values: the canonical form of a rational
    decides the equality of two finite numbers. *)
Ltac number_eq :=
  vm_compute;
  repeat match goal with
         | |- _ /\ _ => split
         | |- Fin _ = Fin _ =>
             apply (f_equal Fin); apply Qc_is_canon; reflexivity
         | |- Some _ = Some _ => apply f_equal
         | |- (_, _) = (_, _) => apply f_equal2
         | |- _ :: _ = _ :: _ => apply f_equal2
         | |- _ = _ => reflexivity
         end.


Section NumberFacts.

Lemma add_assoc (a b c : number) : a + (b + c) = a + b + c.
Proof.
  destruct a, b, c; simpl; try reflexivity.
  now rewrite Qcplus_assoc.
Qed.

Lemma add_zero_l (a : number) : zero + a = a.
Proof.
  destruct a; simpl; try reflexivity.
  f_equal. apply Qcplus_0_l.
Qed.

Lemma add_zero_r (a : number) : a + zero = a.
Proof.
  destruct a; simpl; try reflexivity.
  f_equal. apply Qcplus_0_r.
Qed.

Lemma finite_Fin (a : number) : finite a -> exists q, a = Fin q.
Proof. destruct a; simpl; try tauto. eauto. Qed.

Lemma add_finite (a b : number) : finite a -> finite b -> finite (a + b).
Proof. destruct a, b; simpl; tauto. Qed.

Lemma mul_finite (a b : number) : finite a -> finite b -> finite (a * b).
Proof. destruct a, b; simpl; tauto. Qed.

Lemma div_hundred_finite (a : number) : finite a -> finite (a / hundred).
Proof. destruct a; simpl; tauto. Qed.

Lemma gt_irrefl (a : number) : (a >? a) = false.
Proof.
  destruct a; simpl; try reflexivity.
  assert (H : (q ?= q)%Qc = Eq) by now apply Qceq_alt.
  now rewrite H.
Qed.

Lemma gt_Fin (x y : Qc) : (Fin x >? Fin y) = true <-> (y < x)%Qc.
Proof.
  simpl. split; intro H.
  - apply Qcgt_alt. destruct (x ?= y)%Qc; congruence.
  - apply Qcgt_alt in H. now rewrite H.
Qed.

Lemma gt_Fin_false (x y : Qc) : (Fin x >? Fin y) = false <-> (x <= y)%Qc.
Proof.
  split; intro H.
  - apply Qcnot_lt_le. intro L. apply gt_Fin in L. congruence.
  - destruct (Fin x >? Fin y) eqn:E; trivial.
    apply gt_Fin in E. now apply Qcle_not_lt in H.
Qed.

Lemma gt_trans (a b c : number) :
  (a >? b) = true -> (b >? c) = true -> (a >? c) = true.
Proof.
  destruct a, b, c; try (simpl; congruence).
  rewrite !gt_Fin. intros; eapply Qclt_trans; eassumption.
Qed.

(** [a] is not above [b], and [c] is above [b]: [c] is above [a], unless
    [a] is not a number. *)
Lemma gt_le_trans (a b c : number) :
  (a >? b) = false -> (c >? b) = true -> (c >? a) = true \/ a = NaN.
Proof.
  destruct a, b, c; try (simpl; intuition congruence).
  rewrite gt_Fin_false, !gt_Fin. intros. left.
  eapply Qcle_lt_trans; eassumption.
Qed.

Lemma gt_false_trans (a b c : number) :
  (a >? b) = false -> (c >? b) = true -> (a >? c) = false.
Proof.
  destruct a, b, c; try (simpl; intuition congruence).
  rewrite !gt_Fin_false, gt_Fin. intros.
  apply Qclt_le_weak. eapply Qcle_lt_trans; eassumption.
Qed.

Lemma gt_zero_truthy (a : number) : (a >? zero) = true -> truthy a = true.
Proof.
  destruct a; simpl; try congruence.
  unfold sgn. change (Q2Qc (inject_Z 0)) with (Q2Qc 0).
  destruct (q ?= Q2Qc 0)%Qc; congruence.
Qed.

Lemma sub_gt_zero (x y : Qc) :
  ((Fin x - Fin y) >? zero) = (Fin x >? Fin y).
Proof.
  unfold sub, zero, of_Z. simpl neg. simpl add.
  change (Q2Qc (inject_Z 0)) with (Q2Qc 0).
  destruct (Fin x >? Fin y) eqn:E.
  - apply gt_Fin in E. apply gt_Fin.
    now apply Qclt_minus_iff in E.
  - apply gt_Fin_false in E.
    apply gt_Fin_false. apply Qcle_minus_iff in E.
    apply Qcle_minus_iff.
    replace (Q2Qc 0 + - (x + - y))%Qc with (y + - x)%Qc by ring.
    exact E.
Qed.

End NumberFacts.

(** ** Dictionaries *)

Section ObjectFacts.
Context {V : Type}.
Implicit Types (o : JsObject.object V) (k : string) (v : V).

Lemma get_set_same k v o : JsObject.get k (JsObject.set k v o) = Some v.
Proof.
  induction o as [|[k' v'] o IH]; simpl.
  - now rewrite String.eqb_refl.
  - destruct (String.eqb k k') eqn:E; simpl; rewrite E; auto.
Qed.

Lemma get_set_other k k' v o :
  k <> k' -> JsObject.get k' (JsObject.set k v o) = JsObject.get k' o.
Proof.
  intro N. induction o as [|[k0 v0] o IH]; simpl.
  - destruct (String.eqb k' k) eqn:E; trivial.
    apply String.eqb_eq in E. congruence.
  - destruct (String.eqb k k0) eqn:E; simpl.
    + apply String.eqb_eq in E. subst k0.
      destruct (String.eqb k' k) eqn:E'; trivial.
      apply String.eqb_eq in E'. congruence.
    + now rewrite IH.
Qed.

Lemma get_set k k' v o :
  JsObject.get k' (JsObject.set k v o) =
  if String.eqb k' k then Some v else JsObject.get k' o.
Proof.
  destruct (String.eqb k' k) eqn:E.
  - apply String.eqb_eq in E. subst. apply get_set_same.
  - apply String.eqb_neq in E. apply get_set_other. congruence.
Qed.

Lemma get_None k o : JsObject.get k o = None <-> ~ In k (map fst o).
Proof.
  induction o as [|[k' v'] o IH]; simpl.
  - tauto.
  - destruct (String.eqb k k') eqn:E.
    + apply String.eqb_eq in E. subst. split; [discriminate | tauto].
    + apply String.eqb_neq in E. rewrite IH. intuition congruence.
Qed.

Lemma get_In k v o : JsObject.get k o = Some v -> In (k, v) o.
Proof.
  induction o as [|[k' v'] o IH]; simpl; [discriminate|].
  destruct (String.eqb k k') eqn:E.
  - apply String.eqb_eq in E. intros [= ->]. left. congruence.
  - auto.
Qed.

Lemma In_get k v o :
  NoDup (map fst o) -> In (k, v) o -> JsObject.get k o = Some v.
Proof.
  induction o as [|[k' v'] o IH]; simpl; [tauto|].
  intros ND [E | I].
  - injection E as -> ->. now rewrite String.eqb_refl.
  - inversion ND as [|? ? NI ND']; subst.
    destruct (String.eqb k k') eqn:E; auto.
    apply String.eqb_eq in E. subst k'.
    exfalso. apply NI. now apply (in_map fst) in I.
Qed.

(** A write keeps the keys and their order, or adds its key last. *)
Lemma keys_set k v o :
  map fst (JsObject.set k v o) =
  match JsObject.get k o with
  | Some _ => map fst o
  | None => map fst o ++ [k]
  end.
Proof.
  induction o as [|[k' v'] o IH]; simpl; trivial.
  destruct (String.eqb k k') eqn:E; simpl; trivial.
  rewrite IH. now destruct (JsObject.get k o).
Qed.

Lemma NoDup_set k v o :
  NoDup (map fst o) -> NoDup (map fst (JsObject.set k v o)).
Proof.
  intro ND. rewrite keys_set.
  destruct (JsObject.get k o) eqn:G; trivial.
  apply get_None in G.
  apply NoDup_rev in ND. rewrite <- (rev_involutive (_ ++ _)).
  apply NoDup_rev. rewrite rev_app_distr. simpl.
  constructor; trivial. now rewrite <- in_rev.
Qed.

Lemma get_Permutation k (l l' : JsObject.object V) :
  NoDup (map fst l) -> Permutation l l' ->
  JsObject.get k l' = JsObject.get k l.
Proof.
  intros ND P.
  assert (ND' : NoDup (map fst l')).
  { eapply Permutation_NoDup; [|exact ND]. now apply Permutation_map. }
  destruct (JsObject.get k l) as [v|] eqn:G.
  - apply In_get; trivial. eapply Permutation_in; [exact P|].
    now apply get_In.
  - apply get_None. apply get_None in G. intro I. apply G.
    eapply Permutation_in; [|exact I].
    apply Permutation_map. now apply Permutation_sym.
Qed.

(** *** Enumeration order *)

Lemma insert_index_Permutation n (kv : string * V) l :
  Permutation (JsObject.insert_index n kv l) ((n, kv) :: l).
Proof.
  induction l as [|[m kv'] l IH]; simpl; auto.
  destruct (n <? m)%N; auto.
  etransitivity; [apply perm_skip, IH | apply perm_swap].
Qed.

Lemma index_properties_Permutation o :
  Permutation (map snd (JsObject.index_properties o))
    (filter (fun kv => JsObject.is_array_index (fst kv)) o).
Proof.
  induction o as [|kv o IH]; simpl; auto.
  unfold JsObject.is_array_index.
  destruct (JsObject.array_index (fst kv)) as [n|]; trivial.
  etransitivity.
  - apply Permutation_map, insert_index_Permutation.
  - simpl. now apply perm_skip.
Qed.

Lemma filter_split_Permutation {A} (f : A -> bool) (l : list A) :
  Permutation (filter f l ++ filter (fun x => negb (f x)) l) l.
Proof.
  induction l as [|x l IH]; simpl; auto.
  destruct (f x); simpl.
  - now apply perm_skip.
  - etransitivity; [apply Permutation_sym, Permutation_middle|].
    now apply perm_skip.
Qed.

Lemma entries_Permutation o : Permutation (JsObject.entries o) o.
Proof.
  unfold JsObject.entries, JsObject.string_properties.
  etransitivity; [|apply (filter_split_Permutation
                            (fun kv => JsObject.is_array_index (fst kv)))].
  apply Permutation_app_tail, index_properties_Permutation.
Qed.

(** Without array-index keys the enumeration order is the creation
    order. *)
Lemma entries_creation_order o :
  Forall (fun kv => JsObject.array_index (fst kv) = None) o ->
  JsObject.entries o = o.
Proof.
  intro F. unfold JsObject.entries, JsObject.string_properties.
  assert (E : JsObject.index_properties o = []).
  { induction F as [|kv o H F IH]; simpl; trivial. now rewrite H. }
  rewrite E. simpl.
  induction F as [|kv o H F IH]; simpl; trivial.
  unfold JsObject.is_array_index at 1. rewrite H. simpl.
  f_equal. apply IH. simpl in E. now rewrite H in E.
Qed.

End ObjectFacts.

(** A key with an underscore is not an array index. *)
Lemma digits_value_underscore (a b : string) (acc : N) :
  JsObject.digits_value (a ++ "_" ++ b)%string acc = None.
Proof.
  revert acc. induction a as [|c a IH]; intro acc; simpl.
  - reflexivity.
  - destruct (JsObject.digit_of c); auto.
Qed.

Lemma array_index_underscore (a b : string) :
  JsObject.array_index (a ++ "_" ++ b)%string = None.
Proof.
  unfold JsObject.array_index.
  destruct (a ++ "_" ++ b)%string as [|c s] eqn:E; trivial.
  destruct (_ && _); trivial.
  rewrite <- E. now rewrite digits_value_underscore.
Qed.

(** ** Nested loops *)

Lemma fold_nested {S C A : Type} (f : C -> S -> A -> S) (g : C -> list A)
    (cs : list C) (s : S) :
  fold_left (fun s c => fold_left (f c) (g c) s) cs s =
  fold_left (fun s ca => f (fst ca) s (snd ca))
    (flat_map (fun c => map (pair c) (g c)) cs) s.
Proof.
  revert s. induction cs as [|c cs IH]; intro s; simpl; trivial.
  rewrite fold_left_app, IH. f_equal.
  generalize (g c). intro l. revert s.
  induction l as [|a l IHl]; intro s; simpl; auto.
Qed.

Lemma fold_nested_plain {S C A : Type} (f : S -> A -> S) (g : C -> list A)
    (cs : list C) (s : S) :
  fold_left (fun s c => fold_left f (g c) s) cs s =
  fold_left f (flat_map g cs) s.
Proof.
  revert s. induction cs as [|c cs IH]; intro s; simpl; trivial.
  now rewrite fold_left_app, IH.
Qed.

(** ** Group-by with a dictionary *)

Section Grouping.
Context {E G : Type}.
Variable key : E -> string.
Variable create : E -> G.
Variable fold_in : G -> E -> G.

Local Abbreviation group_add := (group_add key create fold_in).
Local Abbreviation group_step := (group_step create fold_in).

Lemma group_get k es m :
  JsObject.get k (fold_left group_add es m) =
  fold_left group_step (filter (fun e => String.eqb k (key e)) es)
    (JsObject.get k m).
Proof.
  revert m. induction es as [|e es IH]; intro m; simpl; trivial.
  rewrite IH. unfold group_add at 1.
  destruct (String.eqb k (key e)) eqn:Ek.
  - apply String.eqb_eq in Ek. subst k. simpl. f_equal.
    unfold group_step.
    destruct (JsObject.get (key e) m); now rewrite get_set_same.
  - f_equal. apply String.eqb_neq in Ek.
    destruct (JsObject.get (key e) m); apply get_set_other; congruence.
Qed.

Lemma existsb_keys k (m : JsObject.object G) :
  existsb (String.eqb k) (map fst m) =
  match JsObject.get k m with Some _ => true | None => false end.
Proof.
  induction m as [|[k' g] m IH]; simpl; trivial.
  destruct (String.eqb k k'); simpl; trivial.
Qed.

Lemma group_keys es m :
  map fst (fold_left group_add es m) =
  fold_left
    (fun seen k =>
       if existsb (String.eqb k) seen then seen else seen ++ [k])
    (map key es) (map fst m).
Proof.
  revert m. induction es as [|e es IH]; intro m; simpl; trivial.
  rewrite IH. f_equal. unfold group_add.
  rewrite existsb_keys.
  destruct (JsObject.get (key e) m) eqn:Gm; rewrite keys_set, Gm; trivial.
Qed.

Lemma group_NoDup es m :
  NoDup (map fst m) -> NoDup (map fst (fold_left group_add es m)).
Proof.
  revert m. induction es as [|e es IH]; intros m ND; simpl; trivial.
  apply IH. unfold group_add.
  destruct (JsObject.get (key e) m); now apply NoDup_set.
Qed.

Lemma set_Forall (P : string * G -> Prop) k g (m : JsObject.object G) :
  Forall P m -> (forall g', P (k, g') -> P (k, g)) -> P (k, g) ->
  Forall P (JsObject.set k g m).
Proof.
  intros F Hk Hn. induction F as [|[k' g'] m H F IH]; simpl.
  - auto.
  - destruct (String.eqb k k') eqn:Ek.
    + apply String.eqb_eq in Ek. subst k'. constructor; eauto.
    + constructor; auto.
Qed.

(** Every group is stored under the key of its entries. *)
Lemma group_keys_Forall (P : string -> Prop) es m :
  (forall e, P (key e)) ->
  Forall (fun kv => P (fst kv)) m ->
  Forall (fun kv => P (fst kv)) (fold_left group_add es m).
Proof.
  intro HP. revert m. induction es as [|e es IH]; intros m F; simpl; trivial.
  apply IH. unfold group_add.
  destruct (JsObject.get (key e) m);
    apply set_Forall; simpl; auto.
Qed.

(** A property of the groups that creation establishes and folding
    keeps. *)
Lemma group_values_Forall (P : G -> Prop) es m :
  (forall e, In e es -> P (create e)) ->
  (forall g e, P g -> P (fold_in g e)) ->
  Forall (fun kv => P (snd kv)) m ->
  Forall (fun kv => P (snd kv)) (fold_left group_add es m).
Proof.
  intros Hc Hf. revert m.
  induction es as [|e es IH]; intros m F; simpl; trivial.
  apply IH; [intros; apply Hc; now right|].
  assert (He : P (create e)) by (apply Hc; now left).
  unfold group_add.
  destruct (JsObject.get (key e) m) as [g|] eqn:Gk.
  - assert (Pg : P g).
    { apply get_In in Gk. rewrite Forall_forall in F. exact (F _ Gk). }
    apply set_Forall; simpl; auto.
  - apply set_Forall; simpl; auto.
Qed.

Variable group_key : G -> string.
Hypothesis create_key : forall e, group_key (create e) = key e.
Hypothesis fold_in_key : forall g e, group_key (fold_in g e) = group_key g.

Lemma group_step_key k l a g :
  (forall g0, a = Some g0 -> group_key g0 = k) ->
  Forall (fun e => key e = k) l ->
  fold_left group_step l a = Some g -> group_key g = k.
Proof.
  revert a. induction l as [|e l IH]; intros a Ha F; simpl.
  - auto.
  - inversion F; subst. apply IH; trivial.
    intros g0 [= <-]. destruct a as [g1|].
    + rewrite fold_in_key. auto.
    + apply create_key.
Qed.

Lemma group_stored_key es k g :
  JsObject.get k (fold_left group_add es []) = Some g -> group_key g = k.
Proof.
  rewrite group_get. simpl. apply group_step_key.
  - discriminate.
  - apply Forall_forall. intros e I. apply filter_In in I.
    destruct I as [_ I]. apply String.eqb_eq in I. congruence.
Qed.

End Grouping.

(** ** The regional aggregator *)

Section RegionFacts.
Import RegionalPerformance RegionView RegionSpec.

Local Abbreviation fresh :=
  (fun region : RegionalPerformance.t =>
     {| perf := region; campaignCount := one |}).
Local Abbreviation region_step := (group_step fresh accumulate).

Lemma build_regionMap_flat campaigns :
  build_regionMap campaigns =
  fold_left (group_add regionKey fresh accumulate) (all_regions campaigns) [].
Proof.
  unfold build_regionMap, all_regions.
  rewrite <- fold_nested_plain. reflexivity.
Qed.

Lemma regionMap_NoDup campaigns :
  NoDup (map fst (build_regionMap campaigns)).
Proof.
  rewrite build_regionMap_flat. apply group_NoDup. constructor.
Qed.

Lemma regionMap_get k campaigns :
  JsObject.get k (build_regionMap campaigns) =
  fold_left region_step (contributing k campaigns) None.
Proof.
  rewrite build_regionMap_flat.
  exact (group_get regionKey fresh accumulate k (all_regions campaigns) []).
Qed.

Lemma regionMap_key k g campaigns :
  JsObject.get k (build_regionMap campaigns) = Some g -> regionKey g = k.
Proof.
  rewrite build_regionMap_flat.
  apply (group_stored_key regionKey fresh accumulate
           (fun g : RegionGroup => regionKey g)); reflexivity.
Qed.

(** The groups are enumerated in the order of their creation. *)
Lemma regionMap_values campaigns :
  JsObject.values (build_regionMap campaigns) =
  map snd (build_regionMap campaigns).
Proof.
  unfold JsObject.values. f_equal. apply entries_creation_order.
  rewrite build_regionMap_flat.
  apply (group_keys_Forall regionKey fresh accumulate
           (fun k => JsObject.array_index k = None)).
  - intro e. apply array_index_underscore.
  - constructor.
Qed.

Lemma regionalData_eq campaigns sel :
  regionalData (regionalMetrics (Some campaigns) sel) =
  map (fun kv => with_coordinates sel (snd kv)) (build_regionMap campaigns).
Proof. simpl. now rewrite regionMap_values, map_map. Qed.

Lemma regionalData_In campaigns sel (d : RegionDatum) :
  In d (regionalData (regionalMetrics (Some campaigns) sel)) ->
  JsObject.get (regionKey d) (build_regionMap campaigns) = Some (group d).
Proof.
  rewrite regionalData_eq. intro I. apply in_map_iff in I.
  destruct I as [[k g] [<- I]]. simpl.
  pose proof (In_get _ _ _ (regionMap_NoDup campaigns) I) as Gk.
  now rewrite (regionMap_key _ _ _ Gk).
Qed.

Lemma accumulate_derived_ok r region : derived_ok (accumulate r region).
Proof. repeat split. Qed.

Lemma region_step_derived_ok l r e g :
  fold_left region_step (e :: l) (Some r) = Some g -> derived_ok g.
Proof.
  revert r e. induction l as [|e' l IH]; intros r e.
  - simpl. intros [= <-]. apply accumulate_derived_ok.
  - intro H. exact (IH _ _ H).
Qed.

(** *** The top region *)

Lemma pick_top_invariant l top current :
  top_invariant l top -> top_invariant (l ++ [current]) (pick_top top current).
Proof.
  unfold pick_top. destruct top as [t|]; simpl.
  - intros [Pt (before & after & -> & Hb & Ha)].
    unfold or_else. rewrite (gt_zero_truthy _ Pt).
    destruct (revenue current >? revenue t) eqn:C; simpl.
    + split; [eapply gt_trans; eassumption|].
      exists (before ++ t :: after), []. split; [reflexivity|].
      split; [|intros g []].
      intros g I. apply in_app_or in I. destruct I as [I|[<-|I]].
      * destruct (Hb g I) as [H| ->]; [left|now right].
        eapply gt_trans; eassumption.
      * now left.
      * eapply gt_le_trans; eauto.
    + split; trivial.
      exists before, (after ++ [current]). rewrite <- app_assoc. simpl.
      repeat split; trivial.
      intros g I. apply in_app_or in I. destruct I as [I|[<-|[]]]; auto.
  - intro H. destruct (revenue current >? zero) eqn:C; simpl.
    + split; trivial. exists l, []. repeat split.
      * intros g I. eapply gt_le_trans; eauto.
      * intros g [].
    + intros g I. apply in_app_or in I. destruct I as [I|[<-|[]]]; auto.
Qed.

Lemma fold_pick_top_invariant l :
  top_invariant l (fold_left pick_top l None).
Proof.
  induction l as [|x l IH] using rev_ind.
  - intros g [].
  - rewrite fold_left_app. simpl. now apply pick_top_invariant.
Qed.

End RegionFacts.

(** ** Results on the regional aggregator *)

Section RegionClaims.
Import RegionalPerformance RegionView RegionSpec.

(** C1, as stated, fails: the group of a single entry keeps the rates
    stored in that entry.  With 3000 impressions, 100 clicks and a stored
    [ctr] of 3.33 the group reports 3.33, not 100 / 3000 * 100. *)
Lemma regional_single_entry_not_recomputed :
  ~ Forall (fun d : RegionDatum => derived_ok d)
      (regionalData (regionalMetrics (Some [Samples.rounded]) key_revenue)).
Proof.
  intro F. inversion F as [|d l [Hctr _] _]; subst.
  vm_compute in Hctr. inversion Hctr.
Qed.

(** C1 (amended): every group record of the regional aggregator into
    which two or more regional entries were folded has its five derived
    metrics equal to the formulas of section 4.1 on its final summed
    counters; a group with exactly one contributing entry is a copy of
    that entry, stored derived metrics included, with [campaignCount] 1. *)
Theorem regional_derived_metrics campaigns sel (d : RegionDatum) :
  In d (regionalData (regionalMetrics (Some campaigns) sel)) ->
  match contributing (regionKey d) campaigns with
  | [] => False
  | [e] => group d = {| perf := e; campaignCount := one |}
  | _ :: _ :: _ => derived_ok d
  end.
Proof.
  intro I. apply regionalData_In in I. rewrite regionMap_get in I.
  destruct (contributing (regionKey d) campaigns) as [|e [|e' l]].
  - discriminate.
  - cbv [fold_left group_step] in I. now injection I as <-.
  - simpl fold_left at 1 in I.
    change (fold_left (group_step
              (fun region => {| perf := region; campaignCount := one |})
              accumulate) (e' :: l)
              (Some {| perf := e; campaignCount := one |}) = Some (group d))
      in I.
    exact (region_step_derived_ok _ _ _ _ I).
Qed.

Lemma regional_derived_metrics_witness :
  Forall (fun d : RegionDatum => derived_ok d)
    (regionalData
       (regionalMetrics (Some [Samples.dubai_1; Samples.dubai_2])
          key_revenue)).
Proof.
  apply Forall_forall. intros d I.
  pose proof (regional_derived_metrics _ _ d I) as H.
  simpl in I. destruct I as [<- | []]. exact H.
Defined.



(** C9: no top region is reported exactly when no group has a revenue
    above 0; a list of groups whose revenues are all 0 has none. *)
Theorem top_region_null_iff campaigns sel :
  (topRegion (regionalMetrics campaigns sel) = None <->
   forall g : RegionDatum,
     In g (regionalData (regionalMetrics campaigns sel)) ->
     (revenue g >? zero) = false) /\
  ((forall g : RegionDatum,
      In g (regionalData (regionalMetrics campaigns sel)) ->
      revenue g = zero) ->
   topRegion (regionalMetrics campaigns sel) = None).
Proof.
  assert (M : topRegion (regionalMetrics campaigns sel) = None <->
              forall g : RegionDatum,
                In g (regionalData (regionalMetrics campaigns sel)) ->
                (revenue g >? zero) = false).
  { destruct campaigns as [campaigns|]; [|simpl; tauto].
    pose proof (fold_pick_top_invariant
                  (regionalData (regionalMetrics (Some campaigns) sel))) as T.
    change (fold_left pick_top
              (regionalData (regionalMetrics (Some campaigns) sel)) None)
      with (topRegion (regionalMetrics (Some campaigns) sel)) in T.
    destruct (topRegion (regionalMetrics (Some campaigns) sel)) as [t|].
    - destruct T as [Pt (before & after & E & _)].
      split; [discriminate|]. intro A. exfalso.
      rewrite (A t) in Pt; [discriminate|].
      rewrite E. apply in_or_app. right. now left.
    - split; trivial. }
  split; trivial.
  intro Z. apply M. intros g I. rewrite (Z g I). apply gt_irrefl.
Qed.

(** The dataset [Samples.unpaid] has two groups, both with a revenue of 0,
    and no top region. *)
Lemma top_region_null_iff_witness :
  List.length
    (regionalData (regionalMetrics (Some [Samples.unpaid]) key_revenue))
  = 2%nat /\
  topRegion (regionalMetrics (Some [Samples.unpaid]) key_revenue) = None.
Proof.
  split; [reflexivity|].
  apply (proj2 (top_region_null_iff (Some [Samples.unpaid]) key_revenue)).
  intros g I. simpl in I. destruct I as [<-|[<-|[]]]; reflexivity.
Defined.

(** The end-to-end example of the specification: Dubai, UAE in two
    campaigns. *)
Example dubai_end_to_end :
  map (fun d : RegionDatum =>
         (RegionSpec.counters d,
          (ctr d, conversion_rate d, cpc d, cpa d, roas d), campaignCount d))
    (regionalData
       (regionalMetrics (Some [Samples.dubai_1; Samples.dubai_2])
          key_revenue)) =
  [ ({| c_impressions := of_Z 3000; c_clicks := of_Z 150;
        c_conversions := of_Z 15; c_spend := of_Z 300;
        c_revenue := of_Z 900 |},
     (of_Z 5, of_Z 10, of_Z 2, of_Z 20, of_Z 3), of_Z 2) ].
Proof.
  vm_compute.
  repeat (apply f_equal2; try reflexivity);
    apply f_equal; apply Qc_is_canon; reflexivity.
Qed.

End RegionClaims.

(** ** Sums of counters *)

Lemma counters_add_assoc (a b c : Counters) :
  counters_add a (counters_add b c) = counters_add (counters_add a b) c.
Proof.
  unfold counters_add.
  cbv [c_impressions c_clicks c_conversions c_spend c_revenue].
  now rewrite !add_assoc.
Qed.

Lemma counters_add_zero_r (a : Counters) : counters_add a counters_zero = a.
Proof.
  destruct a. unfold counters_add.
  cbv [c_impressions c_clicks c_conversions c_spend c_revenue counters_zero].
  now rewrite !add_zero_r.
Qed.

Lemma counters_add_zero_l (a : Counters) : counters_add counters_zero a = a.
Proof.
  destruct a. unfold counters_add.
  cbv [c_impressions c_clicks c_conversions c_spend c_revenue counters_zero].
  now rewrite !add_zero_l.
Qed.

Lemma fold_counters_add (l : list Counters) (a b : Counters) :
  fold_left counters_add l (counters_add a b) =
  counters_add a (fold_left counters_add l b).
Proof.
  revert b. induction l as [|c l IH]; intro b; simpl; trivial.
  now rewrite <- counters_add_assoc, IH.
Qed.

Lemma fold_counters_app (la lb : list Counters) :
  fold_left counters_add (la ++ lb) counters_zero =
  counters_add (fold_left counters_add la counters_zero)
    (fold_left counters_add lb counters_zero).
Proof.
  rewrite fold_left_app.
  rewrite <- (counters_add_zero_r (fold_left counters_add la counters_zero))
    at 1.
  apply fold_counters_add.
Qed.

(** ** The device aggregator *)

Section DeviceFacts.
Import DevicePerformance DeviceView DeviceSpec.

Local Abbreviation step :=
  (fun (s : State) (cd : Campaign.t * DevicePerformance.t) =>
     add_device (fst cd) s (snd cd)).

Lemma run_flat campaigns : run campaigns = fold_left step (all_devices campaigns) init.
Proof.
  unfold run, all_devices.
  exact (fold_nested add_device Campaign.device_performance campaigns init).
Qed.

Lemma step_rows l st :
  rows (fold_left step l st) =
  rows st ++ map (fun cd => row (fst cd) (snd cd)) l.
Proof.
  revert st. induction l as [|[c d] l IH]; intro st; simpl.
  - now rewrite app_nil_r.
  - rewrite IH.
    assert (R : rows (add_device c st d) = rows st ++ [row c d]).
    { unfold add_device.
      destruct (String.eqb (device d) "Mobile"); simpl; trivial.
      destruct (String.eqb (device d) "Desktop"); reflexivity. }
    rewrite R, <- app_assoc. reflexivity.
Qed.

Lemma step_mobile l st :
  mobileData (fold_left step l st) =
  fold_left accumulate (filter is_mobile (map snd l)) (mobileData st).
Proof.
  revert st. induction l as [|[c d] l IH]; intro st; simpl; trivial.
  rewrite IH. unfold add_device, is_mobile. simpl.
  destruct (String.eqb (device d) "Mobile"); simpl; trivial.
  destruct (String.eqb (device d) "Desktop"); reflexivity.
Qed.

Lemma step_desktop l st :
  desktopData (fold_left step l st) =
  fold_left accumulate (filter is_desktop (map snd l)) (desktopData st).
Proof.
  revert st. induction l as [|[c d] l IH]; intro st; simpl; trivial.
  rewrite IH. unfold add_device, is_desktop. simpl.
  destruct (String.eqb (device d) "Mobile") eqn:M; simpl.
  - apply String.eqb_eq in M. rewrite M. reflexivity.
  - destruct (String.eqb (device d) "Desktop"); reflexivity.
Qed.

Lemma all_devices_entries campaigns :
  map snd (all_devices campaigns) =
  flat_map Campaign.device_performance campaigns.
Proof.
  unfold all_devices. induction campaigns as [|c cs IH]; simpl; trivial.
  rewrite map_app, IH, map_map. simpl. now rewrite map_id.
Qed.

Lemma filter_known (f : DevicePerformance.t -> bool) l :
  (forall d, f d = true -> known d = true) ->
  filter f (filter known l) = filter f l.
Proof.
  intro H. induction l as [|d l IH]; simpl; trivial.
  destruct (known d) eqn:K; simpl.
  - now rewrite IH.
  - destruct (f d) eqn:F; trivial. apply H in F. congruence.
Qed.

Lemma entries_only_known (f : DevicePerformance.t -> bool) campaigns :
  (forall d, f d = true -> known d = true) ->
  filter f (flat_map Campaign.device_performance (map only_known campaigns)) =
  filter f (flat_map Campaign.device_performance campaigns).
Proof.
  intro H. induction campaigns as [|c cs IH]; simpl; trivial.
  rewrite !filter_app, IH. f_equal. now apply filter_known.
Qed.

Lemma run_only_known campaigns :
  mobileData (run (map only_known campaigns)) = mobileData (run campaigns) /\
  desktopData (run (map only_known campaigns)) = desktopData (run campaigns).
Proof.
  rewrite !run_flat, !step_mobile, !step_desktop, !all_devices_entries.
  split; rewrite entries_only_known; trivial; unfold known; intros d ->;
    auto using orb_true_r.
Qed.

Lemma accumulate_counters l d :
  counters (fold_left accumulate l d) =
  fold_left counters_add (map entry_counters l) (counters d).
Proof.
  revert d. induction l as [|e l IH]; intro d; simpl; [reflexivity|].
  exact (IH (accumulate d e)).
Qed.

End DeviceFacts.

(** ** Results on the device aggregator *)

Section DeviceClaims.
Import DevicePerformance DeviceView DeviceSpec.

(** C6: the two buckets of the device aggregator, counters, campaignCount
    and percentage_of_traffic included, are those of the dataset from which
    every entry with a label other than Mobile and Desktop has been
    removed. *)
Theorem other_devices_ignored campaigns :
  mobile (deviceMetrics (Some campaigns)) =
  mobile (deviceMetrics (Some (map only_known campaigns))) /\
  desktop (deviceMetrics (Some campaigns)) =
  desktop (deviceMetrics (Some (map only_known campaigns))).
Proof.
  destruct (run_only_known campaigns) as [M D].
  simpl. rewrite M, D. split; reflexivity.
Qed.

(** The tablet of [Samples.three_devices] is in neither bucket: the shares
    of traffic are 25 and 75 per cent of 4000 impressions. *)
Example tablet_ignored :
  let res := deviceMetrics (Some [Samples.three_devices]) in
  d_impressions (mobile res) = of_Z 1000 /\
  d_impressions (desktop res) = of_Z 3000 /\
  campaignCount (mobile res) = one /\
  campaignCount (desktop res) = one /\
  percentage_of_traffic (mobile res) = of_Z 25 /\
  percentage_of_traffic (desktop res) = of_Z 75.
Proof. number_eq. Qed.

(** C10: the rows of the device aggregator show the device entries of the
    campaigns, one row for each entry and in the order of the input,
    whatever the label; the roas of a row is revenue / spend when the
    spend of the entry is above 0, and 0 otherwise. *)
Theorem rows_follow_entries campaigns :
  Forall2 row_of_entry (all_devices campaigns)
    (performanceByCampaign (deviceMetrics (Some campaigns))).
Proof.
  simpl. rewrite run_flat, step_rows. simpl.
  induction (all_devices campaigns) as [|[c d] l IH]; simpl; constructor;
    trivial.
  unfold row_of_entry, row. simpl.
  repeat (split; [reflexivity|]).
  split; intros ->; reflexivity.
Qed.

(** The three entries of [Samples.three_devices] give three rows; the
    tablet, without spend, has a roas of 0. *)
Example three_rows :
  map (fun r => (r_device r, r_roas r))
    (performanceByCampaign (deviceMetrics (Some [Samples.three_devices]))) =
  [("Mobile", of_Z 3); ("Tablet", zero); ("Desktop", of_Z 2)].
Proof. number_eq. Qed.

End DeviceClaims.

(** ** Looking a group up by its key *)

Section Lookup.
Context {G : Type}.
Variable group_key : G -> string.

(** In a list that holds the groups of a dictionary in any order, the
    search for a key finds what the dictionary holds under it. *)
Lemma find_values k (m : JsObject.object G) (l : list G) :
  NoDup (map fst m) ->
  (forall k' g, JsObject.get k' m = Some g -> group_key g = k') ->
  Permutation l (map snd m) ->
  find (fun g => String.eqb k (group_key g)) l = JsObject.get k m.
Proof.
  intros ND K P.
  assert (M : forall g, In g l -> String.eqb k (group_key g) = true ->
                    JsObject.get k m = Some g).
  { intros g I E. apply String.eqb_eq in E.
    apply (Permutation_in _ P) in I. apply in_map_iff in I.
    destruct I as [[k' g'] [<- I]]. simpl in E.
    pose proof (In_get _ _ _ ND I) as Gk. rewrite (K _ _ Gk) in E.
    now subst k'. }
  destruct (find _ l) as [g|] eqn:F.
  - apply find_some in F. destruct F as [I E]. symmetry. now apply M.
  - destruct (JsObject.get k m) as [g|] eqn:Gk; trivial.
    assert (I : In g l).
    { apply (Permutation_in _ (Permutation_sym P)).
      apply get_In in Gk. now apply (in_map snd) in Gk. }
    pose proof (find_none _ _ F _ I) as E. simpl in E.
    rewrite (K _ _ Gk), String.eqb_refl in E. discriminate.
Qed.

Lemma find_map {D : Type} (f : G -> D) (p : D -> bool) (l : list G) :
  find p (map f l) = option_map f (find (fun g => p (f g)) l).
Proof.
  induction l as [|g l IH]; simpl; trivial.
  destruct (p (f g)); trivial.
Qed.

End Lookup.

(** ** Sums over the entries of a key *)

Lemma merge_with_assoc {A : Type} (f : A -> A -> A) :
  (forall a b c, f a (f b c) = f (f a b) c) ->
  forall x y z,
    merge_with f x (merge_with f y z) = merge_with f (merge_with f x y) z.
Proof.
  intros H [a|] [b|] [c|]; simpl; trivial. now rewrite H.
Qed.

Section MergeSum.
Context {A : Type}.
Variable f : A -> A -> A.
Hypothesis f_assoc : forall a b c, f a (f b c) = f (f a b) c.

Lemma merge_sum_from (l : list A) (a : option A) :
  merge_sum f l a = merge_with f a (merge_sum f l None).
Proof.
  unfold merge_sum. revert a.
  induction l as [|c l IH]; intro a; simpl.
  - now destruct a.
  - rewrite IH. rewrite (IH (Some c)).
    rewrite (merge_with_assoc _ f_assoc). reflexivity.
Qed.

Lemma merge_sum_app (la lb : list A) :
  merge_sum f (la ++ lb) None =
  merge_with f (merge_sum f la None) (merge_sum f lb None).
Proof.
  unfold merge_sum at 1. rewrite fold_left_app.
  exact (merge_sum_from lb (merge_sum f la None)).
Qed.

Lemma merge_sum_Some (l : list A) (a : A) :
  merge_sum f l (Some a) = Some (fold_left f l a).
Proof.
  unfold merge_sum. revert a. induction l as [|c l IH]; intro a; simpl; auto.
Qed.

End MergeSum.

Section GroupCounters.
Context {E G C : Type}.
Variable create : E -> G.
Variable fold_in : G -> E -> G.
Variable plus : C -> C -> C.
Variable group_counters : G -> C.
Variable entry_counters : E -> C.
Hypothesis create_counters :
  forall e, group_counters (create e) = entry_counters e.
Hypothesis fold_in_counters :
  forall g e,
    group_counters (fold_in g e) = plus (group_counters g) (entry_counters e).

Lemma group_step_counters l a :
  option_map group_counters (fold_left (group_step create fold_in) l a) =
  merge_sum plus (map entry_counters l) (option_map group_counters a).
Proof.
  unfold merge_sum.
  revert a. induction l as [|e l IH]; intro a; simpl; trivial.
  rewrite IH. f_equal. unfold group_step.
  destruct a as [g|]; simpl; f_equal; auto.
Qed.

End GroupCounters.

(** ** Sorting *)

Section SortFacts.
Context {A : Type}.
Variable rank : A -> number.

Local Abbreviation by_rank := (fun a b : A => rank a - rank b).
Local Abbreviation ranked :=
  (fun a b : A => WeeklySpec.time_le (rank a) (rank b)).

Lemma insert_Permutation (cmp : A -> A -> number) x l :
  Permutation (JsArray.insert cmp x l) (x :: l).
Proof.
  induction l as [|y l IH]; simpl; auto.
  destruct (cmp x y >? zero); auto.
  etransitivity; [apply perm_skip, IH | apply perm_swap].
Qed.

Lemma sort_Permutation (cmp : A -> A -> number) l :
  Permutation (JsArray.sort cmp l) l.
Proof.
  induction l as [|x l IH]; simpl; auto.
  etransitivity; [apply insert_Permutation | now apply perm_skip].
Qed.

Lemma time_le_trans (a b c : number) :
  WeeklySpec.time_le a b -> WeeklySpec.time_le b c -> WeeklySpec.time_le a c.
Proof.
  destruct a, b, c; simpl; try tauto. apply Qcle_trans.
Qed.

Lemma insert_sorted x l :
  finite (rank x) -> Forall (fun a => finite (rank a)) l ->
  StronglySorted ranked l ->
  StronglySorted ranked (JsArray.insert by_rank x l).
Proof.
  intros Fx Fl S. induction S as [|y l S IH R]; simpl.
  - constructor; constructor.
  - inversion Fl as [|? ? Fy Fl']; subst.
    destruct (finite_Fin _ Fx) as [a Ex], (finite_Fin _ Fy) as [b Ey].
    rewrite Ex, Ey, sub_gt_zero.
    destruct (Fin a >? Fin b) eqn:C.
    + constructor; [auto|].
      apply (Permutation_Forall
               (Permutation_sym (insert_Permutation by_rank x l))).
      constructor; trivial.
      rewrite Ex, Ey. simpl. apply gt_Fin in C. now apply Qclt_le_weak.
    + apply gt_Fin_false in C.
      assert (Rxy : WeeklySpec.time_le (rank x) (rank y))
        by (now rewrite Ex, Ey).
      constructor; [constructor; trivial|].
      constructor; trivial.
      eapply Forall_impl; [|exact R]. intros z Rz.
      eapply time_le_trans; eassumption.
Qed.

Lemma sort_sorted l :
  Forall (fun a => finite (rank a)) l ->
  StronglySorted ranked (JsArray.sort by_rank l).
Proof.
  induction 1 as [|x l Fx Fl IH]; simpl.
  - constructor.
  - apply insert_sorted; trivial.
    apply (Permutation_Forall
             (Permutation_sym (sort_Permutation by_rank l))). exact Fl.
Qed.

End SortFacts.

(** ** The weekly aggregator *)

Section WeeklyFacts.
Import WeeklyPerformance WeeklyView WeeklySpec.

Local Abbreviation same := (fun week : WeeklyPerformance.t => week).

Lemma build_weeklyMap_flat campaigns :
  build_weeklyMap campaigns =
  fold_left (group_add weekKey same accumulate) (all_weeks campaigns) [].
Proof.
  unfold build_weeklyMap, all_weeks.
  rewrite <- fold_nested_plain. reflexivity.
Qed.

Lemma weeklyMap_NoDup campaigns : NoDup (map fst (build_weeklyMap campaigns)).
Proof. rewrite build_weeklyMap_flat. apply group_NoDup. constructor. Qed.

Lemma weeklyMap_get k campaigns :
  JsObject.get k (build_weeklyMap campaigns) =
  fold_left (group_step same accumulate)
    (filter (fun w => String.eqb k (weekKey w)) (all_weeks campaigns)) None.
Proof.
  rewrite build_weeklyMap_flat.
  exact (group_get weekKey same accumulate k (all_weeks campaigns) []).
Qed.

Lemma weeklyMap_key k g campaigns :
  JsObject.get k (build_weeklyMap campaigns) = Some g -> weekKey g = k.
Proof.
  rewrite build_weeklyMap_flat.
  apply (group_stored_key weekKey same accumulate weekKey); reflexivity.
Qed.

Lemma weeklyMap_values campaigns :
  JsObject.values (build_weeklyMap campaigns) =
  map snd (build_weeklyMap campaigns).
Proof.
  unfold JsObject.values. f_equal. apply entries_creation_order.
  rewrite build_weeklyMap_flat.
  apply (group_keys_Forall weekKey same accumulate
           (fun k => JsObject.array_index k = None)).
  - intro e. apply array_index_underscore.
  - constructor.
Qed.

(** Every group starts on the day on which one of the entries starts. *)
Lemma weeklyMap_week_start (P : string -> Prop) campaigns :
  Forall (fun w => P (week_start w)) (all_weeks campaigns) ->
  Forall (fun g => P (week_start g)) (map snd (build_weeklyMap campaigns)).
Proof.
  intro F. rewrite build_weeklyMap_flat. apply Forall_map.
  apply (group_values_Forall weekKey same accumulate
           (fun g => P (week_start g))).
  - rewrite Forall_forall in F. exact F.
  - trivial.
  - constructor.
Qed.

Lemma weeklyData_eq Date_getTime label campaigns :
  weeklyData (weeklyMetrics Date_getTime label (Some campaigns)) =
  Some (JsArray.sort (by_week_start Date_getTime)
          (map snd (build_weeklyMap campaigns))).
Proof. simpl. now rewrite weeklyMap_values. Qed.

End WeeklyFacts.

(** ** Results on the weekly aggregator *)

Section WeeklyClaims.
Import WeeklyPerformance WeeklyView WeeklySpec.

(** C4: when the week_start of every weekly entry is a date, the groups
    of the weekly aggregator are in ascending order of the time of their
    week_start: each group starts no later than every group after it. *)
Theorem weekly_groups_chronological Date_getTime label campaigns :
  Forall (fun w => finite (Date_getTime (week_start w))) (all_weeks campaigns) ->
  exists data,
    weeklyData (weeklyMetrics Date_getTime label (Some campaigns)) = Some data /\
    StronglySorted
      (fun a b =>
         time_le (Date_getTime (week_start a)) (Date_getTime (week_start b)))
      data.
Proof.
  intro F. eexists. split; [apply weeklyData_eq|].
  apply (sort_sorted (fun w => Date_getTime (week_start w))).
  now apply (weeklyMap_week_start (fun s => finite (Date_getTime s))).
Qed.

(** Weeks arriving as February, January, March leave the aggregator as
    January, February, March. *)
Lemma weekly_groups_chronological_witness :
  exists data,
    weeklyData
      (weeklyMetrics iso_getTime (fun s => s)
         (Some [Samples.february; Samples.january; Samples.march]))
    = Some data /\
    map week_start data = ["2024-01-01"; "2024-02-01"; "2024-03-01"] /\
    StronglySorted
      (fun a b =>
         time_le (iso_getTime (week_start a)) (iso_getTime (week_start b)))
      data.
Proof.
  destruct (weekly_groups_chronological iso_getTime (fun s => s)
              [Samples.february; Samples.january; Samples.march])
    as [data [E S]].
  - repeat constructor.
  - exists data. split; [exact E|]. split; [|exact S].
    vm_compute in E. injection E as <-. reflexivity.
Defined.

End WeeklyClaims.

(** ** Sums of numbers *)

Lemma fold_add (l : list number) (a b : number) :
  fold_left add l (a + b) = a + fold_left add l b.
Proof.
  revert b. induction l as [|c l IH]; intro b; simpl; trivial.
  now rewrite <- add_assoc, IH.
Qed.

Lemma sum_app (la lb : list number) : sum (la ++ lb) = sum la + sum lb.
Proof.
  unfold sum. rewrite fold_left_app.
  rewrite <- (add_zero_r (fold_left add la zero)) at 1.
  apply fold_add.
Qed.

Lemma sum_cons (x : number) (l : list number) :
  sum (x :: l) = fold_left add l x.
Proof. unfold sum. cbn [fold_left]. now rewrite add_zero_l. Qed.

Lemma merge_sum_add (l : list number) :
  merge_sum add l None = match l with [] => None | _ => Some (sum l) end.
Proof.
  destruct l as [|x l]; trivial.
  rewrite sum_cons. unfold merge_sum at 1. simpl.
  apply (merge_sum_Some add).
Qed.

Lemma fold_add_finite (l : list number) (a : number) :
  finite a -> Forall finite l -> finite (fold_left add l a).
Proof.
  intros Fa Fl. revert a Fa.
  induction Fl as [|x l Fx Fl IH]; intros a Fa; simpl; trivial.
  apply IH. now apply add_finite.
Qed.

(** A finite number that is falsy is [0]. *)
Lemma finite_falsy (v : number) : finite v -> truthy v = false -> v = zero.
Proof.
  destruct v; simpl; try tauto. intros _. unfold sgn.
  destruct (q ?= Q2Qc 0)%Qc eqn:E; try discriminate.
  intros _. apply Qceq_alt in E. subst q. reflexivity.
Qed.

(** ** The demographic aggregator *)

Lemma set_set {V : Type} k (v v' : V) (o : JsObject.object V) :
  JsObject.set k v (JsObject.set k v' o) = JsObject.set k v o.
Proof.
  induction o as [|[k0 v0] o IH]; simpl.
  - now rewrite String.eqb_refl.
  - destruct (String.eqb k k0) eqn:E; simpl; rewrite E; trivial.
    now rewrite IH.
Qed.

Lemma find_get {V : Type} k (l : JsObject.object V) :
  option_map snd (find (fun kv => String.eqb k (fst kv)) l) = JsObject.get k l.
Proof.
  induction l as [|[k' v] l IH]; simpl; trivial.
  destruct (String.eqb k k'); trivial.
Qed.

Section DemographicFacts.
Import DemographicBreakdown DemographicView DemographicSpec.

Local Abbreviation entry := (Campaign.t * DemographicBreakdown.t)%type.
Local Abbreviation dstep :=
  (fun (s : State) (cb : entry) => add_breakdown (fst cb) s (snd cb)).
Local Abbreviation age := (fun cb : entry => age_group (snd cb)).
Local Abbreviation male := (fun cb : entry => is_male (gender (snd cb))).
Local Abbreviation female := (fun cb : entry => is_female (gender (snd cb))).
Local Abbreviation first_of :=
  (fun cb : entry => add_performance zero_age_group (performance (snd cb))).
Local Abbreviation next_of :=
  (fun (d : AgeGroupData) (cb : entry) =>
     add_performance d (performance (snd cb))).
Local Abbreviation number_step :=
  (fun (alloc : entry -> number) (m : JsObject.object number) (cb : entry) =>
     add_number (age cb) (alloc cb) (init_number (age cb) m)).

Lemma demographic_run_flat campaigns :
  run campaigns = fold_left dstep (all_breakdowns campaigns) init.
Proof.
  unfold run, all_breakdowns.
  exact (fold_nested add_breakdown Campaign.demographic_breakdown
           campaigns init).
Qed.

Lemma male_not_female g : is_male g = true -> is_female g = false.
Proof.
  unfold is_male, is_female. intro H. apply String.eqb_eq in H.
  now rewrite H.
Qed.

Ltac by_gender l :=
  let c := fresh "c" in
  let b := fresh "b" in
  let IH := fresh "IH" in
  let M := fresh "M" in
  let st := fresh "st" in
  intro st; revert st; induction l as [|[c b] l IH]; intro st; simpl;
  [ reflexivity
  | rewrite IH; unfold add_breakdown; simpl;
    destruct (is_male (gender b)) eqn:M;
    [ rewrite ?(male_not_female _ M)
    | destruct (is_female (gender b)) ];
    reflexivity ].

Lemma fold_maleClicks l : forall st,
  s_maleClicks (fold_left dstep l st) =
  fold_left add (map (fun cb : entry => clicks (performance (snd cb)))
                   (filter male l)) (s_maleClicks st).
Proof. by_gender l. Qed.

Lemma fold_maleSpend l : forall st,
  s_maleSpend (fold_left dstep l st) =
  fold_left add (map (fun cb : entry =>
                        allocation (Campaign.spend (fst cb)) (snd cb))
                   (filter male l)) (s_maleSpend st).
Proof. by_gender l. Qed.

Lemma fold_maleRevenue l : forall st,
  s_maleRevenue (fold_left dstep l st) =
  fold_left add (map (fun cb : entry =>
                        allocation (Campaign.revenue (fst cb)) (snd cb))
                   (filter male l)) (s_maleRevenue st).
Proof. by_gender l. Qed.

Lemma fold_femaleClicks l : forall st,
  s_femaleClicks (fold_left dstep l st) =
  fold_left add (map (fun cb : entry => clicks (performance (snd cb)))
                   (filter female l)) (s_femaleClicks st).
Proof. by_gender l. Qed.

Lemma fold_femaleSpend l : forall st,
  s_femaleSpend (fold_left dstep l st) =
  fold_left add (map (fun cb : entry =>
                        allocation (Campaign.spend (fst cb)) (snd cb))
                   (filter female l)) (s_femaleSpend st).
Proof. by_gender l. Qed.

Lemma fold_femaleRevenue l : forall st,
  s_femaleRevenue (fold_left dstep l st) =
  fold_left add (map (fun cb : entry =>
                        allocation (Campaign.revenue (fst cb)) (snd cb))
                   (filter female l)) (s_femaleRevenue st).
Proof. by_gender l. Qed.

Lemma fold_spendMap l : forall st,
  ageGroupSpendMap (fold_left dstep l st) =
  fold_left
    (number_step (fun cb => allocation (Campaign.spend (fst cb)) (snd cb)))
    l (ageGroupSpendMap st).
Proof. by_gender l. Qed.

Lemma fold_revenueMap l : forall st,
  ageGroupRevenueMap (fold_left dstep l st) =
  fold_left
    (number_step (fun cb => allocation (Campaign.revenue (fst cb)) (snd cb)))
    l (ageGroupRevenueMap st).
Proof. by_gender l. Qed.

Lemma age_group_step k p (m : JsObject.object AgeGroupData) :
  add_age_group k p (init_age_group k m) =
  match JsObject.get k m with
  | None => JsObject.set k (add_performance zero_age_group p) m
  | Some d => JsObject.set k (add_performance d p) m
  end.
Proof.
  unfold add_age_group, init_age_group.
  destruct (JsObject.get k m) as [d|] eqn:Gk.
  - now rewrite Gk.
  - now rewrite get_set_same, set_set.
Qed.

Lemma fold_maleMap l : forall st,
  maleAgeGroupMap (fold_left dstep l st) =
  fold_left (group_add age first_of next_of) (filter male l)
    (maleAgeGroupMap st).
Proof.
  intro st; revert st; induction l as [|[c b] l IH]; intro st; simpl;
    [reflexivity|].
  rewrite IH. unfold add_breakdown. simpl.
  destruct (is_male (gender b)) eqn:M; simpl.
  - f_equal. apply age_group_step.
  - destruct (is_female (gender b)); reflexivity.
Qed.

Lemma fold_femaleMap l : forall st,
  femaleAgeGroupMap (fold_left dstep l st) =
  fold_left (group_add age first_of next_of) (filter female l)
    (femaleAgeGroupMap st).
Proof.
  intro st; revert st; induction l as [|[c b] l IH]; intro st; simpl;
    [reflexivity|].
  rewrite IH. unfold add_breakdown. simpl.
  destruct (is_male (gender b)) eqn:M; simpl.
  - now rewrite (male_not_female _ M).
  - destruct (is_female (gender b)); simpl; trivial.
    f_equal. apply age_group_step.
Qed.

End DemographicFacts.

(** *** The maps of allocated amounts *)

Section NumberMaps.
Import DemographicBreakdown DemographicView DemographicSpec.

Local Abbreviation entry := (Campaign.t * DemographicBreakdown.t)%type.
Local Abbreviation age := (fun cb : entry => age_group (snd cb)).
Variable alloc : entry -> number.

Local Abbreviation number_step :=
  (fun (m : JsObject.object number) (cb : entry) =>
     add_number (age cb) (alloc cb) (init_number (age cb) m)).
Local Abbreviation all_finite :=
  (Forall (fun kv : string * number => finite (snd kv))).

Lemma init_number_get k k' (m : JsObject.object number) :
  all_finite m ->
  JsObject.get k' (init_number k m) =
  if String.eqb k' k
  then Some (match JsObject.get k m with Some v => v | None => zero end)
  else JsObject.get k' m.
Proof.
  intro F. unfold init_number.
  destruct (JsObject.get k m) as [v|] eqn:Gk.
  - destruct (truthy v) eqn:T.
    + destruct (String.eqb k' k) eqn:E; trivial.
      apply String.eqb_eq in E. now subst.
    + rewrite get_set. destruct (String.eqb k' k); trivial.
      f_equal. symmetry. apply finite_falsy; trivial.
      apply get_In in Gk. rewrite Forall_forall in F. exact (F _ Gk).
  - apply get_set.
Qed.

Lemma number_step_get k' m cb :
  all_finite m ->
  JsObject.get k' (number_step m cb) =
  if String.eqb k' (age cb)
  then merge_with add (JsObject.get (age cb) m) (Some (alloc cb))
  else JsObject.get k' m.
Proof.
  intro F. unfold add_number.
  rewrite (init_number_get _ (age cb) m F), String.eqb_refl.
  rewrite get_set, (init_number_get _ k' m F).
  destruct (String.eqb k' (age cb)); trivial.
  destruct (JsObject.get (age cb) m); unfold merge_with; trivial.
  now rewrite add_zero_l.
Qed.

Lemma number_step_NoDup m cb :
  NoDup (map fst m) -> NoDup (map fst (number_step m cb)).
Proof.
  intro ND. unfold add_number, init_number.
  repeat match goal with
         | |- context [match ?x with _ => _ end] => destruct x
         end; auto using NoDup_set.
Qed.

Lemma number_step_finite m cb :
  all_finite m -> finite (alloc cb) -> all_finite (number_step m cb).
Proof.
  intros F Fa.
  assert (F' : all_finite (init_number (age cb) m)).
  { unfold init_number.
    repeat match goal with
           | |- context [match ?x with _ => _ end] => destruct x
           end; trivial; apply set_Forall; simpl; trivial. }
  unfold add_number.
  destruct (JsObject.get (age cb) (init_number (age cb) m)) as [v|] eqn:Gk.
  - assert (Fv : finite (v + alloc cb)).
    { apply (add_finite v (alloc cb)); trivial.
      apply get_In in Gk. rewrite Forall_forall in F'. exact (F' _ Gk). }
    apply set_Forall; simpl; auto.
  - rewrite (init_number_get _ _ _ F), String.eqb_refl in Gk. discriminate.
Qed.

Lemma number_fold_get k l : forall m,
  all_finite m -> Forall (fun cb => finite (alloc cb)) l ->
  JsObject.get k (fold_left number_step l m) =
  merge_sum add
    (map alloc (filter (fun cb => String.eqb k (age cb)) l))
    (JsObject.get k m).
Proof.
  induction l as [|cb l IH]; intros m F Fl; simpl; trivial.
  inversion Fl as [|? ? Fa Fl']; subst.
  rewrite IH; trivial; [|now apply number_step_finite].
  rewrite (number_step_get k m cb F).
  destruct (String.eqb k (age cb)) eqn:E; trivial.
  apply String.eqb_eq in E. now subst k.
Qed.

Lemma number_fold_NoDup l : forall m,
  NoDup (map fst m) -> NoDup (map fst (fold_left number_step l m)).
Proof.
  induction l as [|cb l IH]; intros m ND; simpl; trivial.
  apply IH. now apply number_step_NoDup.
Qed.

End NumberMaps.

(** *** What the result shows *)

Section DemographicLookup.
Import DemographicBreakdown DemographicView DemographicSpec.

Lemma point_of_points k colour (m : JsObject.object number) :
  NoDup (map fst m) -> point_of k (points colour m) = JsObject.get k m.
Proof.
  intro ND. unfold point_of, points.
  rewrite (find_map (fun kv : string * number =>
                       {| label := fst kv; value := snd kv; color := colour |})).
  simpl. rewrite <- (get_Permutation k m (JsObject.entries m) ND).
  - rewrite <- find_get. now destruct (find _ _).
  - apply Permutation_sym, entries_Permutation.
Qed.

Lemma rate_all_get k (m : JsObject.object AgeGroupData) :
  JsObject.get k (rate_all m) = option_map with_rates (JsObject.get k m).
Proof.
  induction m as [|[k' d] m IH]; simpl; trivial.
  destruct (String.eqb k k'); trivial.
Qed.

Lemma row_of_rows k (m : JsObject.object AgeGroupData) :
  NoDup (map fst m) ->
  row_of k (age_rows (rate_all m)) = option_map raw_of_data (JsObject.get k m).
Proof.
  intro ND. unfold row_of, age_rows.
  rewrite (find_map (fun kv : string * AgeGroupData =>
                       {| row_age_group := fst kv; data := snd kv |})).
  simpl.
  assert (ND' : NoDup (map fst (rate_all m))).
  { unfold rate_all. rewrite map_map. simpl. exact ND. }
  transitivity (option_map raw_of_data (JsObject.get k (rate_all m))).
  - rewrite <- (get_Permutation k (rate_all m)
                  (JsObject.entries (rate_all m)) ND').
    + rewrite <- find_get. now destruct (find _ _).
    + apply Permutation_sym, entries_Permutation.
  - rewrite rate_all_get. now destruct (JsObject.get k m).
Qed.

Lemma raw_add_assoc a b c :
  raw_add a (raw_add b c) = raw_add (raw_add a b) c.
Proof.
  destruct a as [[? ?] ?], b as [[? ?] ?], c as [[? ?] ?].
  unfold raw_add. now rewrite !add_assoc.
Qed.

End DemographicLookup.

(** *** Matching a gender *)

Lemma lower_letter (a b : ascii) :
  In b ["m"; "a"; "l"; "e"; "f"]%char ->
  Ascii.eqb (JsString.lower a) b = Ascii.eqb a b || Ascii.eqb a (capital b).
Proof.
  intros [<-|[<-|[<-|[<-|[<-|[]]]]]];
    destruct a as [[] [] [] [] [] [] [] []]; reflexivity.
Qed.

Lemma matches_lower (word : string) :
  Forall (fun b => In b ["m"; "a"; "l"; "e"; "f"]%char)
    (list_ascii_of_string word) ->
  forall s,
    String.eqb (JsString.toLowerCase s) word = matches_ignoring_case s word.
Proof.
  induction word as [|b word IH]; intros F [|a s]; simpl; trivial.
  inversion F as [|? ? Hb F']; subst.
  rewrite (lower_letter a b Hb), (IH F' s).
  now destruct (_ || _).
Qed.

Lemma is_male_matches g :
  DemographicView.is_male g = matches_ignoring_case g "male".
Proof.
  apply matches_lower. repeat constructor; simpl; tauto.
Qed.

Lemma is_female_matches g :
  DemographicView.is_female g = matches_ignoring_case g "female".
Proof.
  apply matches_lower. repeat constructor; simpl; tauto.
Qed.

(** ** Results on the demographic aggregator *)

Section DemographicClaims.
Import DemographicBreakdown DemographicView DemographicSpec.

Local Abbreviation entry := (Campaign.t * DemographicBreakdown.t)%type.

Lemma of_gender_male l :
  of_gender "male" l = filter (fun cb : entry => is_male (gender (snd cb))) l.
Proof.
  unfold of_gender. apply filter_ext. intro cb.
  symmetry. apply is_male_matches.
Qed.

Lemma of_gender_female l :
  of_gender "female" l =
  filter (fun cb : entry => is_female (gender (snd cb))) l.
Proof.
  unfold of_gender. apply filter_ext. intro cb.
  symmetry. apply is_female_matches.
Qed.

(** C8: the gender totals of the demographic aggregator are sums over the
    breakdown entries whose gender is "male", respectively "female",
    whatever the case of its letters; the clicks of an entry are added as
    they are, the spend and the revenue of its campaign are added in the
    proportion percentage_of_audience / 100.  An entry of any other gender
    is in neither selection. *)
Theorem gender_totals campaigns :
  let res := demographicMetrics (Some campaigns) in
  let males := of_gender "male" (all_breakdowns campaigns) in
  let females := of_gender "female" (all_breakdowns campaigns) in
  let raw_clicks := fun cb : entry => clicks (performance (snd cb)) in
  let share := fun total (cb : entry) => allocation (total (fst cb)) (snd cb) in
  maleClicks res = sum (map raw_clicks males) /\
  maleSpend res = sum (map (share Campaign.spend) males) /\
  maleRevenue res = sum (map (share Campaign.revenue) males) /\
  femaleClicks res = sum (map raw_clicks females) /\
  femaleSpend res = sum (map (share Campaign.spend) females) /\
  femaleRevenue res = sum (map (share Campaign.revenue) females).
Proof.
  cbv zeta. rewrite of_gender_male, of_gender_female.
  unfold demographicMetrics. cbv zeta.
  cbn [maleClicks maleSpend maleRevenue femaleClicks femaleSpend
       femaleRevenue].
  rewrite demographic_run_flat.
  rewrite fold_maleClicks, fold_maleSpend, fold_maleRevenue,
    fold_femaleClicks, fold_femaleSpend, fold_femaleRevenue.
  repeat split.
Qed.

(** In [Samples.mixed] the segment in capitals counts as male, the
    segment of another gender counts for neither total. *)
Example mixed_gender_totals :
  let res := demographicMetrics (Some [Samples.mixed]) in
  maleClicks res = of_Z 40 /\ maleSpend res = of_Z 150 /\
  maleRevenue res = of_Z 240 /\
  femaleClicks res = of_Z 60 /\ femaleSpend res = of_Z 100 /\
  femaleRevenue res = of_Z 160.
Proof. number_eq. Qed.

Lemma finite_allocations campaigns :
  Forall finite_input campaigns ->
  Forall (fun cb : entry =>
            finite (allocation (Campaign.spend (fst cb)) (snd cb)) /\
            finite (allocation (Campaign.revenue (fst cb)) (snd cb)))
    (all_breakdowns campaigns).
Proof.
  intro F. unfold all_breakdowns.
  induction F as [|c cs [Fs [Fr Fp]] F IH]; simpl; [constructor|].
  apply Forall_app. split; trivial.
  apply Forall_map. eapply Forall_impl; [|exact Fp].
  intros b Fb. simpl. unfold allocation.
  split; apply mul_finite; trivial; now apply div_hundred_finite.
Qed.

Lemma allocated_get (total : Campaign.t -> number) k campaigns :
  allocated total k campaigns =
  merge_sum add
    (map (fun cb : entry => allocation (total (fst cb)) (snd cb))
       (of_age_group k (all_breakdowns campaigns))) None.
Proof.
  unfold allocated. rewrite merge_sum_add.
  now destruct (of_age_group k (all_breakdowns campaigns)).
Qed.

Lemma allocated_points campaigns k :
  Forall finite_input campaigns ->
  point_of k (ageGroupSpend (demographicMetrics (Some campaigns))) =
  allocated Campaign.spend k campaigns /\
  point_of k (ageGroupRevenue (demographicMetrics (Some campaigns))) =
  allocated Campaign.revenue k campaigns.
Proof.
  intro F. apply finite_allocations in F.
  rewrite !allocated_get. unfold demographicMetrics. cbv zeta.
  cbn [ageGroupSpend ageGroupRevenue].
  rewrite demographic_run_flat, fold_spendMap, fold_revenueMap.
  split.
  - rewrite point_of_points; [|apply number_fold_NoDup; constructor].
    apply number_fold_get; [constructor|].
    eapply Forall_impl; [|exact F]. now intros cb [H _].
  - rewrite point_of_points; [|apply number_fold_NoDup; constructor].
    apply number_fold_get; [constructor|].
    eapply Forall_impl; [|exact F]. now intros cb [_ H].
Qed.



End DemographicClaims.

(** ** Additivity *)

Lemma flat_map_pair {A B : Type} (f : A -> list B) (a b : A) :
  flat_map f [a; b] = flat_map f [a] ++ flat_map f [b].
Proof. simpl. now rewrite !app_nil_r. Qed.

Lemma merge_sum_pair {A B C : Type} (plus : C -> C -> C)
    (plus_assoc : forall a b c, plus a (plus b c) = plus (plus a b) c)
    (entries : A -> list B) (p : B -> bool) (g : B -> C) (a b : A) :
  merge_sum plus (map g (filter p (flat_map entries [a; b]))) None =
  merge_with plus
    (merge_sum plus (map g (filter p (flat_map entries [a]))) None)
    (merge_sum plus (map g (filter p (flat_map entries [b]))) None).
Proof.
  rewrite flat_map_pair, filter_app, map_app.
  now apply merge_sum_app.
Qed.

Section Additivity.

Lemma regional_counters_of k campaigns sel :
  RegionSpec.counters_of k (RegionView.regionalMetrics (Some campaigns) sel) =
  merge_sum counters_add
    (map RegionSpec.counters (RegionSpec.contributing k campaigns)) None.
Proof.
  unfold RegionSpec.counters_of, RegionSpec.group_of.
  rewrite regionalData_eq, <- map_map.
  rewrite (find_map (RegionView.with_coordinates sel)). simpl.
  rewrite (find_values
             (fun g => RegionView.regionKey (RegionView.perf g)) k
             (RegionView.build_regionMap campaigns)).
  - rewrite regionMap_get.
    etransitivity;
      [|exact (group_step_counters
                 (fun region =>
                    {| RegionView.perf := region;
                       RegionView.campaignCount := one |})
                 RegionView.accumulate counters_add
                 (fun g => RegionSpec.counters (RegionView.perf g))
                 RegionSpec.counters
                 (fun e => eq_refl) (fun g e => eq_refl)
                 (RegionSpec.contributing k campaigns) None)].
    now destruct (fold_left _ _ _).
  - apply regionMap_NoDup.
  - intros k' g. apply regionMap_key.
  - reflexivity.
Qed.

Lemma weekly_counters_of Date_getTime label k campaigns :
  WeeklySpec.counters_of k
    (WeeklyView.weeklyMetrics Date_getTime label (Some campaigns)) =
  merge_sum counters_add
    (map WeeklySpec.counters
       (filter (fun w => String.eqb k (WeeklyView.weekKey w))
          (WeeklySpec.all_weeks campaigns))) None.
Proof.
  unfold WeeklySpec.counters_of, WeeklySpec.group_of.
  rewrite weeklyData_eq.
  rewrite (find_values WeeklyView.weekKey k
             (WeeklyView.build_weeklyMap campaigns)).
  - rewrite weeklyMap_get.
    apply (group_step_counters (fun w => w) WeeklyView.accumulate
             counters_add
             WeeklySpec.counters WeeklySpec.counters); trivial.
  - apply weeklyMap_NoDup.
  - intros k' g. apply weeklyMap_key.
  - apply sort_Permutation.
Qed.

Lemma device_counters campaigns :
  DeviceSpec.counters
    (DeviceView.mobile (DeviceView.deviceMetrics (Some campaigns))) =
  fold_left counters_add
    (map DeviceSpec.entry_counters
       (filter DeviceSpec.is_mobile
          (flat_map Campaign.device_performance campaigns)))
    counters_zero /\
  DeviceSpec.counters
    (DeviceView.desktop (DeviceView.deviceMetrics (Some campaigns))) =
  fold_left counters_add
    (map DeviceSpec.entry_counters
       (filter DeviceSpec.is_desktop
          (flat_map Campaign.device_performance campaigns)))
    counters_zero.
Proof.
  split.
  - change (DeviceSpec.counters
              (DeviceView.mobile (DeviceView.deviceMetrics (Some campaigns))))
      with (DeviceSpec.counters
              (DeviceView.mobileData (DeviceView.run campaigns))).
    rewrite run_flat, step_mobile, all_devices_entries.
    apply accumulate_counters.
  - change (DeviceSpec.counters
              (DeviceView.desktop (DeviceView.deviceMetrics (Some campaigns))))
      with (DeviceSpec.counters
              (DeviceView.desktopData (DeviceView.run campaigns))).
    rewrite run_flat, step_desktop, all_devices_entries.
    apply accumulate_counters.
Qed.

Lemma age_group_rows k
    (l : list (Campaign.t * DemographicBreakdown.t)) :
  DemographicSpec.row_of k
    (DemographicView.age_rows
       (DemographicView.rate_all
          (fold_left
             (group_add
                (fun cb => DemographicBreakdown.age_group (snd cb))
                (fun cb =>
                   DemographicView.add_performance
                     DemographicView.zero_age_group
                     (DemographicBreakdown.performance (snd cb)))
                (fun d cb =>
                   DemographicView.add_performance d
                     (DemographicBreakdown.performance (snd cb))))
             l []))) =
  merge_sum DemographicSpec.raw_add
    (map DemographicSpec.raw_of_entry
       (filter (fun cb =>
                  String.eqb k (DemographicBreakdown.age_group (snd cb))) l))
    None.
Proof.
  rewrite row_of_rows; [|apply group_NoDup; constructor].
  rewrite group_get.
  apply (group_step_counters _ _ DemographicSpec.raw_add
           DemographicSpec.raw_of_data DemographicSpec.raw_of_entry).
  - intro cb. unfold DemographicSpec.raw_of_data, DemographicSpec.raw_of_entry,
      DemographicView.add_performance, DemographicView.zero_age_group.
    cbn [DemographicView.g_impressions DemographicView.g_clicks
         DemographicView.g_conversions].
    now rewrite !add_zero_l.
  - reflexivity.
Qed.

Lemma age_rows_of k campaigns :
  let entries := DemographicSpec.all_breakdowns campaigns in
  let of_age :=
    filter (fun cb : Campaign.t * DemographicBreakdown.t =>
              String.eqb k (DemographicBreakdown.age_group (snd cb))) in
  DemographicSpec.row_of k
    (DemographicView.maleAgeGroups
       (DemographicView.demographicMetrics (Some campaigns))) =
  merge_sum DemographicSpec.raw_add
    (map DemographicSpec.raw_of_entry
       (of_age (DemographicSpec.of_gender "male" entries))) None /\
  DemographicSpec.row_of k
    (DemographicView.femaleAgeGroups
       (DemographicView.demographicMetrics (Some campaigns))) =
  merge_sum DemographicSpec.raw_add
    (map DemographicSpec.raw_of_entry
       (of_age (DemographicSpec.of_gender "female" entries))) None.
Proof.
  cbv zeta. rewrite of_gender_male, of_gender_female.
  unfold DemographicView.demographicMetrics. cbv zeta.
  cbn [DemographicView.maleAgeGroups DemographicView.femaleAgeGroups].
  rewrite demographic_run_flat, fold_maleMap, fold_femaleMap.
  split; apply age_group_rows.
Qed.

End Additivity.

Section AdditivityClaim.

Local Abbreviation regional := RegionView.regionalMetrics.
Local Abbreviation weekly := WeeklyView.weeklyMetrics.
Local Abbreviation device := DeviceView.deviceMetrics.
Local Abbreviation demographic := DemographicView.demographicMetrics.

Ltac two_campaigns :=
  rewrite flat_map_pair, ?filter_app, map_app.

Lemma gender_sums campaigns :
  let res := demographic (Some campaigns) in
  let entries := DemographicSpec.all_breakdowns campaigns in
  let males :=
    filter (fun cb : Campaign.t * DemographicBreakdown.t =>
              DemographicView.is_male (DemographicBreakdown.gender (snd cb)))
      entries in
  let females :=
    filter (fun cb : Campaign.t * DemographicBreakdown.t =>
              DemographicView.is_female (DemographicBreakdown.gender (snd cb)))
      entries in
  let raw_clicks :=
    fun cb : Campaign.t * DemographicBreakdown.t =>
      DemographicBreakdown.clicks (DemographicBreakdown.performance (snd cb)) in
  let share :=
    fun total (cb : Campaign.t * DemographicBreakdown.t) =>
      DemographicSpec.allocation (total (fst cb)) (snd cb) in
  DemographicView.maleClicks res = sum (map raw_clicks males) /\
  DemographicView.maleSpend res = sum (map (share Campaign.spend) males) /\
  DemographicView.maleRevenue res = sum (map (share Campaign.revenue) males) /\
  DemographicView.femaleClicks res = sum (map raw_clicks females) /\
  DemographicView.femaleSpend res = sum (map (share Campaign.spend) females) /\
  DemographicView.femaleRevenue res =
  sum (map (share Campaign.revenue) females).
Proof.
  cbv zeta. unfold DemographicView.demographicMetrics. cbv zeta.
  cbn [DemographicView.maleClicks DemographicView.maleSpend
       DemographicView.maleRevenue DemographicView.femaleClicks
       DemographicView.femaleSpend DemographicView.femaleRevenue].
  rewrite demographic_run_flat.
  rewrite fold_maleClicks, fold_maleSpend, fold_maleRevenue,
    fold_femaleClicks, fold_femaleSpend, fold_femaleRevenue.
  repeat split.
Qed.


End AdditivityClaim.


(** ** The empty dataset *)

(** C2, as stated, fails: on a dataset without campaigns the share of
    traffic of a device bucket is 0 / (0 + 0) * 100, which is not 0. *)
Lemma empty_list_traffic_share_not_zero :
  DeviceView.percentage_of_traffic
    (DeviceView.mobile (DeviceView.deviceMetrics (Some []))) <> zero /\
  DeviceView.percentage_of_traffic
    (DeviceView.desktop (DeviceView.deviceMetrics (Some []))) <> zero.
Proof. split; vm_compute; discriminate. Qed.

(** C2 (amended): on an absent dataset and on a dataset without campaigns
    every aggregator returns a result: all totals are 0 and the group
    collections are empty, except that for the list without campaigns the
    percentage_of_traffic of both device buckets is NaN (their counters,
    ctr and conversion_rate being 0) and the three device charts hold the
    two points Mobile and Desktop at 0, and that the weekly result for an
    absent dataset has no weeklyData at all. *)
Theorem empty_dataset sel Date_getTime label :
  RegionView.regionalMetrics None sel = EmptySpec.regional /\
  RegionView.regionalMetrics (Some []) sel = EmptySpec.regional /\
  WeeklyView.weeklyMetrics Date_getTime label None = EmptySpec.weekly None /\
  WeeklyView.weeklyMetrics Date_getTime label (Some []) =
  EmptySpec.weekly (Some []) /\
  DemographicView.demographicMetrics None = EmptySpec.demographic /\
  DemographicView.demographicMetrics (Some []) = EmptySpec.demographic /\
  DeviceView.deviceMetrics None = EmptySpec.device_absent /\
  DeviceView.deviceMetrics (Some []) = EmptySpec.device_empty.
Proof. repeat split. Qed.

(* ================================================================= *)
(** * Further properties of the aggregators *)

(** ** Sums in any order *)

Lemma add_comm (a b : number) : a + b = b + a.
Proof.
  destruct a, b; simpl; try reflexivity.
  now rewrite Qcplus_comm.
Qed.

Lemma sum_cons_l (x : number) (l : list number) : sum (x :: l) = x + sum l.
Proof.
  rewrite sum_cons. rewrite <- (add_zero_r x) at 1. apply fold_add.
Qed.

Lemma sum_Permutation (l l' : list number) :
  Permutation l l' -> sum l = sum l'.
Proof.
  induction 1 as [|x l l' P IH|x y l|l l' l'' P IH P' IH'].
  - reflexivity.
  - now rewrite !sum_cons_l, IH.
  - rewrite !sum_cons_l, !add_assoc. f_equal. apply add_comm.
  - congruence.
Qed.

Lemma of_Z_add (a b : Z) : of_Z a + of_Z b = of_Z (a + b).
Proof.
  unfold of_Z. cbn [add]. f_equal. apply Qc_is_canon.
  unfold Qcplus, Q2Qc. cbn [this].
  rewrite !Qred_correct, inject_Z_plus. reflexivity.
Qed.

Lemma sum_ones {A : Type} (l : list A) :
  sum (map (fun _ => one) l) = of_nat (List.length l).
Proof.
  induction l as [|a l IH].
  - reflexivity.
  - cbn [map List.length]. rewrite sum_cons_l, IH. unfold one, of_nat.
    rewrite of_Z_add. f_equal. lia.
Qed.

(** ** What a group-by keeps *)

Section Conservation.
Context {E G : Type}.
Variable key : E -> string.
Variable create : E -> G.
Variable fold_in : G -> E -> G.
Variable group_field : G -> number.
Variable entry_field : E -> number.
Hypothesis create_field : forall e, group_field (create e) = entry_field e.
Hypothesis fold_in_field :
  forall g e, group_field (fold_in g e) = group_field g + entry_field e.

Local Abbreviation total :=
  (fun m : JsObject.object G => sum (map (fun kv => group_field (snd kv)) m)).

Lemma set_absent {V : Type} k (v : V) (m : JsObject.object V) :
  JsObject.get k m = None -> JsObject.set k v m = m ++ [(k, v)].
Proof.
  induction m as [|[k' v'] m IH]; simpl; trivial.
  destruct (String.eqb k k'); [discriminate|].
  intro H. now rewrite IH.
Qed.

Lemma total_set_absent k g (m : JsObject.object G) :
  JsObject.get k m = None ->
  total (JsObject.set k g m) = total m + group_field g.
Proof.
  intro H. rewrite (set_absent _ _ _ H), map_app, sum_app. simpl map.
  now rewrite sum_cons_l, add_zero_r.
Qed.

Lemma total_set_present k g g' x (m : JsObject.object G) :
  JsObject.get k m = Some g -> group_field g' = group_field g + x ->
  total (JsObject.set k g' m) = total m + x.
Proof.
  intros H Hx. induction m as [|[k' v'] m IH]; simpl in *; [discriminate|].
  destruct (String.eqb k k').
  - injection H as ->. cbn [map snd]. rewrite !sum_cons_l, Hx.
    rewrite <- !add_assoc. f_equal. apply add_comm.
  - cbn [map snd]. rewrite !sum_cons_l, (IH H). apply add_assoc.
Qed.

(** The fields of the groups add up to the fields of the entries. *)
Lemma total_group_add es : forall m,
  total (fold_left (group_add key create fold_in) es m) =
  total m + sum (map entry_field es).
Proof.
  induction es as [|e es IH]; intro m; cbn [fold_left map].
  - now rewrite add_zero_r.
  - rewrite IH, sum_cons_l, add_assoc. f_equal. unfold group_add.
    destruct (JsObject.get (key e) m) as [g|] eqn:Gk.
    + now apply (total_set_present _ g).
    + rewrite total_set_absent; trivial. now rewrite create_field.
Qed.

End Conservation.

(** ** More on the regional aggregator *)

Section RegionMore.
Import RegionalPerformance RegionView RegionSpec.

Local Abbreviation fresh :=
  (fun region : RegionalPerformance.t =>
     {| perf := region; campaignCount := one |}).

Lemma regional_totals_fold (l : list RegionDatum) : forall t : Totals,
  let t' := fold_left add_totals l t in
  totalRevenue t' = fold_left add (map (fun d : RegionDatum => revenue d) l)
                      (totalRevenue t) /\
  totalSpend t' = fold_left add (map (fun d : RegionDatum => spend d) l)
                    (totalSpend t) /\
  totalImpressions t' =
  fold_left add (map (fun d : RegionDatum => impressions d) l)
    (totalImpressions t) /\
  totalClicks t' = fold_left add (map (fun d : RegionDatum => clicks d) l)
                     (totalClicks t) /\
  totalConversions t' =
  fold_left add (map (fun d : RegionDatum => conversions d) l)
    (totalConversions t).
Proof.
  induction l as [|d l IH]; intro t; cbn zeta.
  - repeat split.
  - apply (IH (add_totals t d)).
Qed.

Lemma regional_field_total (field : RegionalPerformance.t -> number)
    campaigns sel :
  (forall r e, field (accumulate r e) = field r + field e) ->
  sum (map (fun d : RegionDatum => field d)
         (regionalData (regionalMetrics (Some campaigns) sel))) =
  sum (map field (all_regions campaigns)).
Proof.
  intro H. rewrite regionalData_eq, map_map. cbn [group perf with_coordinates].
  rewrite build_regionMap_flat.
  rewrite (total_group_add regionKey fresh accumulate
             (fun g : RegionGroup => field g) field
             (fun e => eq_refl) H (all_regions campaigns) []).
  apply add_zero_l.
Qed.


Lemma merge_sum_ones {A : Type} (l : list A) :
  merge_sum add (map (fun _ => one) l) None =
  match l with [] => None | _ => Some (of_nat (List.length l)) end.
Proof.
  rewrite merge_sum_add. destruct l as [|a l]; trivial.
  now rewrite <- (sum_ones (a :: l)).
Qed.

(** X2: the campaignCount of a regional group is the number of regional
    entries with the key of the group. *)
Theorem regional_campaign_count campaigns sel (d : RegionDatum) :
  In d (regionalData (regionalMetrics (Some campaigns) sel)) ->
  campaignCount d =
  of_nat (List.length (contributing (regionKey d) campaigns)) /\
  (1 <= List.length (contributing (regionKey d) campaigns))%nat.
Proof.
  intro I. apply regionalData_In in I. rewrite regionMap_get in I.
  pose proof (group_step_counters fresh accumulate add
                (fun g : RegionGroup => campaignCount g) (fun _ => one)
                (fun e => eq_refl) (fun g e => eq_refl)
                (contributing (regionKey d) campaigns) None) as H.
  rewrite I, merge_sum_ones in H. cbn [option_map] in H.
  destruct (contributing (regionKey d) campaigns) as [|e l];
    [discriminate|].
  injection H as H. split; [exact H|]. simpl. lia.
Qed.

Lemma regional_campaign_count_witness :
  Forall (fun d : RegionDatum => campaignCount d = of_nat 2)
    (regionalData
       (regionalMetrics (Some [Samples.dubai_1; Samples.dubai_2])
          key_revenue)).
Proof.
  apply Forall_forall. intros d I.
  destruct (regional_campaign_count _ _ d I) as [H _].
  simpl in I. destruct I as [<- | []]. exact H.
Defined.

Lemma regionalData_keys campaigns sel :
  map (fun d : RegionDatum => regionKey d)
    (regionalData (regionalMetrics (Some campaigns) sel)) =
  map fst (build_regionMap campaigns).
Proof.
  rewrite regionalData_eq, map_map.
  apply map_ext_in. intros [k g] I. simpl.
  eapply regionMap_key, In_get; eauto using regionMap_NoDup.
Qed.

Lemma group_of_get k campaigns sel :
  group_of k (regionalMetrics (Some campaigns) sel) =
  option_map (with_coordinates sel)
    (JsObject.get k (build_regionMap campaigns)).
Proof.
  unfold group_of. rewrite regionalData_eq, <- map_map.
  rewrite (find_map (with_coordinates sel)). simpl. f_equal.
  apply (find_values (fun g : RegionGroup => regionKey g)).
  - apply regionMap_NoDup.
  - intros k' g. apply regionMap_key.
  - reflexivity.
Qed.

Lemma group_step_nonempty {E' G' : Type} (c : E' -> G') (f : G' -> E' -> G')
    (l : list E') (a : option G') :
  fold_left (group_step c f) l a = None <-> l = [] /\ a = None.
Proof.
  revert a. induction l as [|e l IH]; intro a; simpl.
  - tauto.
  - rewrite IH. unfold group_step. split; [intros [_ H]; discriminate|].
    intros [H _]. discriminate.
Qed.


Lemma pick_top_select sel sel' (l : list RegionGroup) :
  forall top : option RegionDatum,
    fold_left pick_top (map (with_coordinates sel') l)
      (option_map (fun d : RegionDatum => with_coordinates sel' d) top) =
    option_map (fun d : RegionDatum => with_coordinates sel' d)
      (fold_left pick_top (map (with_coordinates sel) l) top).
Proof.
  induction l as [|g l IH]; intro top; simpl; trivial.
  rewrite <- IH. f_equal.
  unfold pick_top. destruct top as [t|]; simpl;
    destruct (gt _ _); reflexivity.
Qed.

(** X4: the selected value key is a parameter of the view only: with
    either key the aggregator returns the same groups with the same
    coordinates, the same grand totals and the same top group; the [value]
    of a group is its revenue or its spend according to the key. *)
Theorem value_key_only_sets_value campaigns sel sel' :
  let res := regionalMetrics (Some campaigns) sel in
  let res' := regionalMetrics (Some campaigns) sel' in
  map (fun d : RegionDatum => (group d, lat d, lng d)) (regionalData res) =
  map (fun d : RegionDatum => (group d, lat d, lng d)) (regionalData res') /\
  totals res = totals res' /\
  option_map group (topRegion res) = option_map group (topRegion res') /\
  map value (regionalData res) =
  map (fun d : RegionDatum => select sel d) (regionalData res).
Proof.
  cbv zeta. split; [|split; [|split]].
  - rewrite !regionalData_eq, !map_map. reflexivity.
  - destruct (regional_totals_fold
                (regionalData (regionalMetrics (Some campaigns) sel))
                zero_totals) as (R & S & I & C & V).
    destruct (regional_totals_fold
                (regionalData (regionalMetrics (Some campaigns) sel'))
                zero_totals) as (R' & S' & I' & C' & V').
    cbv zeta in *.
    change (fold_left add_totals
              (regionalData (regionalMetrics (Some campaigns) sel))
              zero_totals)
      with (totals (regionalMetrics (Some campaigns) sel))
      in R, S, I, C, V.
    change (fold_left add_totals
              (regionalData (regionalMetrics (Some campaigns) sel'))
              zero_totals)
      with (totals (regionalMetrics (Some campaigns) sel'))
      in R', S', I', C', V'.
    rewrite !regionalData_eq, !map_map in *. cbn [group perf with_coordinates] in *.
    destruct (totals (regionalMetrics (Some campaigns) sel)),
      (totals (regionalMetrics (Some campaigns) sel')).
    cbn [totalRevenue totalSpend totalImpressions totalClicks
         totalConversions] in *.
    congruence.
  - change (topRegion (regionalMetrics (Some campaigns) sel'))
      with (fold_left pick_top
              (map (with_coordinates sel')
                 (JsObject.values (build_regionMap campaigns))) None).
    change (topRegion (regionalMetrics (Some campaigns) sel))
      with (fold_left pick_top
              (map (with_coordinates sel)
                 (JsObject.values (build_regionMap campaigns))) None).
    rewrite (pick_top_select sel sel' _ None).
    now destruct (fold_left pick_top _ None).
  - rewrite !regionalData_eq, !map_map. reflexivity.
Qed.

End RegionMore.

(** ** More on the device aggregator *)

Section DeviceMore.
Import DevicePerformance DeviceView DeviceSpec.

Lemma accumulate_count l d :
  campaignCount (fold_left accumulate l d) =
  fold_left add (map (fun _ => one) l) (campaignCount d).
Proof.
  revert d. induction l as [|e l IH]; intro d; simpl; [reflexivity|].
  exact (IH (accumulate d e)).
Qed.

Lemma bucket_states campaigns :
  mobileData (run campaigns) =
  fold_left accumulate
    (filter is_mobile (flat_map Campaign.device_performance campaigns))
    zero_data /\
  desktopData (run campaigns) =
  fold_left accumulate
    (filter is_desktop (flat_map Campaign.device_performance campaigns))
    zero_data.
Proof.
  rewrite run_flat, step_mobile, step_desktop, all_devices_entries.
  split; reflexivity.
Qed.

(** X5: the campaignCount of a device bucket is the number of device
    entries, over all campaigns, whose label is that of the bucket. *)
Theorem device_campaign_count campaigns :
  let entries := flat_map Campaign.device_performance campaigns in
  campaignCount (mobile (deviceMetrics (Some campaigns))) =
  of_nat (List.length (filter is_mobile entries)) /\
  campaignCount (desktop (deviceMetrics (Some campaigns))) =
  of_nat (List.length (filter is_desktop entries)).
Proof.
  cbv zeta. destruct (bucket_states campaigns) as [M D].
  change (campaignCount (mobile (deviceMetrics (Some campaigns))))
    with (campaignCount (mobileData (run campaigns))).
  change (campaignCount (desktop (deviceMetrics (Some campaigns))))
    with (campaignCount (desktopData (run campaigns))).
  rewrite M, D, !accumulate_count.
  split; apply sum_ones.
Qed.

(** Shares of a positive finite total. *)
Lemma shares_add_up (a b : Qc) :
  ((Fin a + Fin b) >? zero) = true ->
  Fin a / (Fin a + Fin b) * hundred + Fin b / (Fin a + Fin b) * hundred
  = hundred.
Proof.
  intro P. cbn [add] in *.
  assert (N : (a + b)%Qc <> Q2Qc 0).
  { intro E. rewrite E in P. vm_compute in P. discriminate. }
  assert (S : sgn (a + b) <> Eq).
  { unfold sgn. intro E. apply Qceq_alt in E. contradiction. }
  unfold div. destruct (sgn (a + b)); [contradiction| |];
    unfold hundred, of_Z; cbn [mul add]; f_equal;
    generalize (Q2Qc (inject_Z 100)); intro h; field; exact N.
Qed.



Lemma filter_none {A : Type} (f : A -> bool) (l : list A) :
  Forall (fun a => f a = false) l -> filter f l = [].
Proof.
  induction 1 as [|a l H F IH]; cbn [filter]; trivial. now rewrite H.
Qed.

(** X7: a dataset in which no device entry is labelled Mobile or Desktop
    leaves both buckets without anything counted, and their
    percentage_of_traffic is NaN. *)
Theorem unknown_devices_give_nan campaigns :
  Forall (fun d => known d = false)
    (flat_map Campaign.device_performance campaigns) ->
  mobile (deviceMetrics (Some campaigns)) = EmptySpec.bucket NaN /\
  desktop (deviceMetrics (Some campaigns)) = EmptySpec.bucket NaN.
Proof.
  intro F. destruct (bucket_states campaigns) as [M D].
  assert (Em : filter is_mobile
                 (flat_map Campaign.device_performance campaigns) = []).
  { apply filter_none. eapply Forall_impl; [|exact F].
    intros d K. unfold known in K. apply orb_false_iff in K. tauto. }
  assert (Ed : filter is_desktop
                 (flat_map Campaign.device_performance campaigns) = []).
  { apply filter_none. eapply Forall_impl; [|exact F].
    intros d K. unfold known in K. apply orb_false_iff in K. tauto. }
  rewrite Em in M. rewrite Ed in D. simpl in M, D.
  unfold deviceMetrics. cbv zeta. cbn [mobile desktop]. rewrite M, D.
  split; reflexivity.
Qed.

Lemma unknown_devices_give_nan_witness :
  percentage_of_traffic
    (mobile (deviceMetrics (Some [MoreSamples.tablets_only]))) = NaN /\
  List.length
    (performanceByCampaign
       (deviceMetrics (Some [MoreSamples.tablets_only]))) = 2%nat.
Proof.
  split; [|reflexivity].
  destruct (unknown_devices_give_nan [MoreSamples.tablets_only]) as [M _].
  - repeat constructor.
  - now rewrite M.
Defined.

End DeviceMore.

(** ** More on sorting *)

Lemma sub_self_not_positive (a : number) : ((a - a) >? zero) = false.
Proof.
  destruct a; try reflexivity.
  rewrite sub_gt_zero. apply gt_irrefl.
Qed.

Section StableSort.
Context {A : Type}.
Variable rank : A -> number.
Variable p : A -> bool.
Hypothesis same_rank : forall a b, p a = true -> p b = true -> rank a = rank b.

Local Abbreviation by_rank := (fun a b : A => rank a - rank b).

Lemma insert_stable x l :
  filter p (JsArray.insert by_rank x l) = filter p (x :: l).
Proof.
  induction l as [|y l IH]; [reflexivity|].
  cbn [JsArray.insert].
  destruct (rank x - rank y >? zero) eqn:C; [|reflexivity].
  cbn [filter] in *. rewrite IH.
  destruct (p x) eqn:Px, (p y) eqn:Py; trivial.
  rewrite (same_rank x y Px Py), sub_self_not_positive in C. discriminate.
Qed.

(** Elements of one rank leave the sort in the order in which they
    entered it. *)
Lemma sort_stable l : filter p (JsArray.sort by_rank l) = filter p l.
Proof.
  induction l as [|x l IH]; [reflexivity|].
  cbn [JsArray.sort fold_right].
  change (fold_right (JsArray.insert by_rank) [] l)
    with (JsArray.sort by_rank l).
  rewrite insert_stable. cbn [filter]. now rewrite IH.
Qed.

End StableSort.

(** ** More on the weekly aggregator *)

Section WeeklyMore.
Import WeeklyPerformance WeeklyView WeeklySpec.

Local Abbreviation same := (fun week : WeeklyPerformance.t => week).

Lemma weekly_totals_fold (l : list WeeklyPerformance.t) : forall t : Totals,
  let t' := fold_left add_totals l t in
  totalRevenue t' = fold_left add (map revenue l) (totalRevenue t) /\
  totalSpend t' = fold_left add (map spend l) (totalSpend t) /\
  totalImpressions t' =
  fold_left add (map impressions l) (totalImpressions t) /\
  totalClicks t' = fold_left add (map clicks l) (totalClicks t) /\
  totalConversions t' =
  fold_left add (map conversions l) (totalConversions t).
Proof.
  induction l as [|d l IH]; intro t; cbn zeta.
  - repeat split.
  - apply (IH (add_totals t d)).
Qed.

Lemma weekly_field_total (field : WeeklyPerformance.t -> number)
    Date_getTime campaigns :
  (forall w e, field (accumulate w e) = field w + field e) ->
  sum (map field
         (JsArray.sort (by_week_start Date_getTime)
            (map snd (build_weeklyMap campaigns)))) =
  sum (map field (all_weeks campaigns)).
Proof.
  intro H.
  rewrite (sum_Permutation _ (map field (map snd (build_weeklyMap campaigns)))).
  - rewrite map_map, build_weeklyMap_flat.
    rewrite (total_group_add weekKey same accumulate field field
               (fun e => eq_refl) H (all_weeks campaigns) []).
    apply add_zero_l.
  - apply Permutation_map, sort_Permutation.
Qed.


(** X9: when the week_start of every weekly entry is a date, the groups
    that start on one and the same day leave the weekly aggregator in the
    order in which they were created, that is in the order in which their
    keys are first met. *)
Theorem weekly_sort_stable Date_getTime label campaigns (day : string) :
  Forall (fun w => finite (Date_getTime (week_start w))) (all_weeks campaigns) ->
  exists data,
    weeklyData (weeklyMetrics Date_getTime label (Some campaigns)) = Some data /\
    filter (fun w => String.eqb (week_start w) day) data =
    filter (fun w => String.eqb (week_start w) day)
      (JsObject.values (build_weeklyMap campaigns)) /\
    map fst (build_weeklyMap campaigns) =
    first_seen (map weekKey (all_weeks campaigns)).
Proof.
  intros _. eexists. split; [apply weeklyData_eq|]. split.
  - rewrite weeklyMap_values.
    apply (sort_stable (fun w => Date_getTime (week_start w))).
    intros a b Ha Hb. apply String.eqb_eq in Ha, Hb. congruence.
  - rewrite build_weeklyMap_flat.
    exact (group_keys weekKey same accumulate (all_weeks campaigns) []).
Qed.

Lemma weekly_sort_stable_witness :
  exists data,
    weeklyData
      (weeklyMetrics iso_getTime (fun s => s)
         (Some [MoreSamples.overlapping])) = Some data /\
    map weekKey data =
    ["2024-03-04_2024-03-17"; "2024-03-04_2024-03-10";
     "2024-03-11_2024-03-17"].
Proof.
  destruct (weekly_sort_stable iso_getTime (fun s => s)
              [MoreSamples.overlapping] "2024-03-04")
    as [data [E _]].
  - repeat constructor.
  - exists data. split; [exact E|].
    vm_compute in E. injection E as <-. reflexivity.
Defined.


End WeeklyMore.

(** ** More on the demographic aggregator *)

Section DemographicMore.
Import DemographicBreakdown DemographicView DemographicSpec.

Local Abbreviation entry := (Campaign.t * DemographicBreakdown.t)%type.
Local Abbreviation age := (fun cb : entry => age_group (snd cb)).
Local Abbreviation first_of :=
  (fun cb : entry => add_performance zero_age_group (performance (snd cb))).
Local Abbreviation next_of :=
  (fun (d : AgeGroupData) (cb : entry) =>
     add_performance d (performance (snd cb))).

Lemma age_rows_rated (m : JsObject.object AgeGroupData) :
  Forall (fun r : AgeGroupRow =>
            g_ctr r = Metric.ctr (g_impressions r) (g_clicks r) /\
            g_conversion_rate r =
            Metric.conversion_rate (g_clicks r) (g_conversions r))
    (age_rows (rate_all m)).
Proof.
  unfold age_rows. apply Forall_map.
  apply (Permutation_Forall
           (Permutation_sym (entries_Permutation (rate_all m)))).
  unfold rate_all. apply Forall_map. apply Forall_forall.
  intros kv _. split; reflexivity.
Qed.

(** X11: every row of the age-group tables of either gender has its ctr
    and its conversion_rate equal to the formulas of section 4.1 on the
    summed counters of the row; a row of a single entry is recomputed like
    any other. *)
Theorem age_group_rates_recomputed campaigns :
  let rated :=
    fun r : AgeGroupRow =>
      g_ctr r = Metric.ctr (g_impressions r) (g_clicks r) /\
      g_conversion_rate r =
      Metric.conversion_rate (g_clicks r) (g_conversions r) in
  Forall rated (maleAgeGroups (demographicMetrics campaigns)) /\
  Forall rated (femaleAgeGroups (demographicMetrics campaigns)).
Proof.
  cbv zeta. destruct campaigns as [campaigns|].
  - split; apply age_rows_rated.
  - split; constructor.
Qed.

Lemma rows_field_total (field : AgeGroupData -> number)
    (entry_field : entry -> number) (l : list entry) :
  (forall d, field (with_rates d) = field d) ->
  (forall cb, field (first_of cb) = entry_field cb) ->
  (forall d cb, field (next_of d cb) = field d + entry_field cb) ->
  sum (map (fun r : AgeGroupRow => field r)
         (age_rows (rate_all (fold_left (group_add age first_of next_of) l []))))
  = sum (map entry_field l).
Proof.
  intros Hr Hc Hf. unfold age_rows. rewrite map_map. cbn [data].
  rewrite (sum_Permutation _
             (map (fun kv => field (snd kv))
                (rate_all (fold_left (group_add age first_of next_of) l [])))).
  - unfold rate_all. rewrite map_map. cbn [snd].
    rewrite (map_ext _ (fun kv => field (snd kv))); [|intro; apply Hr].
    rewrite (total_group_add age first_of next_of field entry_field Hc Hf l []).
    apply add_zero_l.
  - apply Permutation_map, entries_Permutation.
Qed.


(** *** Allocated amounts *)

Section AllocatedTotal.
Variable alloc : entry -> number.

Local Abbreviation number_step :=
  (fun (m : JsObject.object number) (cb : entry) =>
     add_number (age cb) (alloc cb) (init_number (age cb) m)).
Local Abbreviation all_finite :=
  (Forall (fun kv : string * number => finite (snd kv))).
Local Abbreviation total :=
  (fun m : JsObject.object number => sum (map snd m)).

Lemma number_step_total m cb :
  all_finite m -> total (number_step m cb) = total m + alloc cb.
Proof.
  intro F.
  pose proof (init_number_get (age cb) (age cb) m F) as G.
  rewrite String.eqb_refl in G.
  assert (T : total (init_number (age cb) m) = total m).
  { unfold init_number.
    destruct (JsObject.get (age cb) m) as [v|] eqn:Gk.
    - destruct (truthy v) eqn:Tv; trivial.
      rewrite <- (add_zero_r (total m)).
      apply (total_set_present (fun v : number => v) _ v); trivial.
      rewrite add_zero_r. symmetry. apply finite_falsy; trivial.
      apply get_In in Gk. rewrite Forall_forall in F. exact (F _ Gk).
    - rewrite (total_set_absent (fun v : number => v)); trivial.
      apply add_zero_r. }
  unfold add_number. rewrite G, <- T.
  now apply (total_set_present (fun v : number => v) _ _ _ _ _ G).
Qed.

Lemma number_fold_total l : forall m,
  all_finite m -> Forall (fun cb => finite (alloc cb)) l ->
  total (fold_left number_step l m) = total m + sum (map alloc l).
Proof.
  induction l as [|cb l IH]; intros m F Fl; cbn [fold_left map].
  - now rewrite add_zero_r.
  - inversion Fl as [|? ? Fa Fl']; subst.
    rewrite IH; trivial; [|now apply number_step_finite].
    rewrite number_step_total, sum_cons_l; trivial. symmetry. apply add_assoc.
Qed.

Lemma points_total colour m :
  sum (map value (points colour m)) = total m.
Proof.
  unfold points. rewrite map_map. cbn [value].
  apply sum_Permutation, Permutation_map, entries_Permutation.
Qed.

End AllocatedTotal.



Lemma allocation_sum (total : Qc) (l : list DemographicBreakdown.t) :
  Forall (fun b => finite (percentage_of_audience b)) l ->
  sum (map (allocation (Fin total)) l) =
  Fin total * (sum (map percentage_of_audience l) / hundred).
Proof.
  induction l as [|b l IH] using rev_ind; intro F.
  - unfold sum. simpl. unfold zero, of_Z. f_equal.
    change (Q2Qc (inject_Z 0)) with (Q2Qc 0).
    generalize (Q2Qc (inject_Z 100)),
      (eq_refl : (Q2Qc (inject_Z 100) ?= Q2Qc 0)%Qc = Gt).
    intros h Hh. field. intro E. rewrite E in Hh. discriminate.
  - apply Forall_app in F. destruct F as [F Fb].
    inversion Fb as [|? ? Fp _]; subst.
    rewrite !map_app, !sum_app, (IH F). cbn [map]. rewrite !sum_cons_l.
    cbn [sum fold_left]. rewrite !add_zero_r.
    assert (Fs : finite (sum (map percentage_of_audience l))).
    { unfold sum. apply fold_add_finite; [exact I|].
      now apply Forall_map. }
    destruct (finite_Fin _ Fs) as [s ->], (finite_Fin _ Fp) as [q Eq].
    unfold allocation. rewrite Eq.
    unfold hundred, of_Z, div, sgn.
    change ((Q2Qc (inject_Z 100) ?= Q2Qc 0)%Qc) with Gt.
    cbn [mul add]. f_equal.
    generalize (Q2Qc (inject_Z 100)), (eq_refl : (Q2Qc (inject_Z 100) ?= Q2Qc 0)%Qc = Gt).
    intros h Hh. field. intro E. rewrite E in Hh. discriminate.
Qed.



End DemographicMore.

(* ================================================================= *)
(** * Properties of the charts *)

(** ** Order of finite numbers *)

Ltac qc_const :=
  first [ reflexivity
        | unfold Qcle, Qclt, Qle, Qlt; vm_compute;
          first [ discriminate | reflexivity ] ].

Lemma Qc_ratio_bounds (a r : Qc) :
  (Q2Qc 0 <= a -> a <= r -> Q2Qc 0 < r ->
   Q2Qc 0 <= a / r /\ a / r <= Q2Qc 1)%Qc.
Proof.
  intros Ha Har Hr.
  assert (N : r <> Q2Qc 0).
  { intro E. rewrite E in Hr. apply (Qclt_not_le _ _ Hr). apply Qcle_refl. }
  assert (E : (a / r * r = a)%Qc) by (field; exact N).
  split; apply (Qcmult_lt_0_le_reg_r _ _ r Hr); rewrite E.
  - now replace (Q2Qc 0 * r)%Qc with (Q2Qc 0) by ring.
  - now replace (Q2Qc 1 * r)%Qc with r by ring.
Qed.

Lemma Qc_scale_bounds (n c : Qc) :
  (Q2Qc 0 <= n -> n <= Q2Qc 1 -> Q2Qc 0 <= c ->
   Q2Qc 0 <= n * c /\ n * c <= c)%Qc.
Proof.
  intros H0 H1 Hc. split.
  - replace (Q2Qc 0) with (Q2Qc 0 * c)%Qc by ring.
    now apply Qcmult_le_compat_r.
  - replace c with (Q2Qc 1 * c)%Qc at 2 by ring.
    now apply Qcmult_le_compat_r.
Qed.

(** ** Math.max and Math.min on finite values *)

Lemma fold_max2_finite (l : list number) : forall qa : Qc,
  Forall finite l ->
  exists q,
    fold_left JsMath.max2 l (Fin qa) = Fin q /\
    (qa <= q)%Qc /\
    Forall (fun v => (v >? Fin q) = false) l /\
    (q = qa \/ In (Fin q) l).
Proof.
  induction l as [|v l IH]; intros qa F.
  - exists qa. repeat split; auto using Qcle_refl.
  - inversion F as [|? ? Fv Fl]; subst.
    destruct (finite_Fin _ Fv) as [qv ->]. cbn [fold_left JsMath.max2].
    destruct (Fin qv >? Fin qa) eqn:C.
    + destruct (IH qv Fl) as (q & E & Hq & Hl & Hin).
      exists q. rewrite E. apply gt_Fin in C.
      repeat split; trivial.
      * apply Qclt_le_weak. eapply Qclt_le_trans; eassumption.
      * constructor; trivial. now apply gt_Fin_false.
      * right. destruct Hin as [-> | Hin]; [now left | now right].
    + destruct (IH qa Fl) as (q & E & Hq & Hl & Hin).
      exists q. rewrite E. apply gt_Fin_false in C.
      repeat split; trivial.
      * constructor; trivial. apply gt_Fin_false.
        eapply Qcle_trans; eassumption.
      * destruct Hin as [-> | Hin]; [now left | right; now right].
Qed.

Lemma fold_min2_finite (l : list number) : forall qa : Qc,
  Forall finite l ->
  exists q,
    fold_left JsMath.min2 l (Fin qa) = Fin q /\
    (q <= qa)%Qc /\
    Forall (fun v => (Fin q >? v) = false) l /\
    (q = qa \/ In (Fin q) l).
Proof.
  induction l as [|v l IH]; intros qa F.
  - exists qa. repeat split; auto using Qcle_refl.
  - inversion F as [|? ? Fv Fl]; subst.
    destruct (finite_Fin _ Fv) as [qv ->]. cbn [fold_left JsMath.min2].
    destruct (Fin qa >? Fin qv) eqn:C.
    + destruct (IH qv Fl) as (q & E & Hq & Hl & Hin).
      exists q. rewrite E. apply gt_Fin in C.
      repeat split; trivial.
      * apply Qclt_le_weak. eapply Qcle_lt_trans; eassumption.
      * constructor; trivial. now apply gt_Fin_false.
      * right. destruct Hin as [-> | Hin]; [now left | now right].
    + destruct (IH qa Fl) as (q & E & Hq & Hl & Hin).
      exists q. rewrite E. apply gt_Fin_false in C.
      repeat split; trivial.
      * constructor; trivial. apply gt_Fin_false.
        eapply Qcle_trans; eassumption.
      * destruct Hin as [-> | Hin]; [now left | right; now right].
Qed.

(** The largest and the smallest of finite values are two of them, and
    every value lies between them. *)
Lemma max_min_finite (l : list number) :
  l <> [] -> Forall finite l ->
  exists lo hi,
    JsMath.min l = Fin lo /\ JsMath.max l = Fin hi /\
    In (Fin lo) l /\ In (Fin hi) l /\
    forall q, In (Fin q) l -> (lo <= q /\ q <= hi)%Qc.
Proof.
  destruct l as [|v l]; [congruence|]. intros _ F.
  inversion F as [|? ? Fv Fl]; subst.
  destruct (finite_Fin _ Fv) as [qv ->].
  destruct (fold_min2_finite l qv Fl) as (lo & El & Hlo & Hl & Hil).
  destruct (fold_max2_finite l qv Fl) as (hi & Eh & Hhi & Hh & Hih).
  exists lo, hi. unfold JsMath.min, JsMath.max. cbn [fold_left].
  change (JsMath.min2 PosInfinity (Fin qv)) with (Fin qv).
  change (JsMath.max2 NegInfinity (Fin qv)) with (Fin qv).
  split; [exact El|]. split; [exact Eh|].
  split; [destruct Hil as [-> | H]; [now left | now right]|].
  split; [destruct Hih as [-> | H]; [now left | now right]|].
  intros q [E | I].
  - injection E as <-. now split.
  - rewrite Forall_forall in Hl, Hh. split.
    + apply gt_Fin_false. exact (Hl _ I).
    + apply gt_Fin_false. exact (Hh _ I).
Qed.

(** The position of a value between the smallest and the largest one. *)
Lemma ratio_between (l : list number) (q : Qc) :
  Forall finite l -> In (Fin q) l ->
  let range := JsMath.max l - JsMath.min l in
  (range >? zero) = true ->
  between 0 1 ((Fin q - JsMath.min l) / range).
Proof.
  intros F I. cbv zeta.
  assert (NE : l <> []) by (intro E; rewrite E in I; contradiction).
  destruct (max_min_finite l NE F) as (lo & hi & -> & -> & _ & _ & B).
  destruct (B q I) as [Hlo Hhi].
  unfold sub. cbn [neg add]. intro P.
  assert (R : (Q2Qc 0 < hi + - lo)%Qc).
  { apply gt_Fin in P. exact P. }
  assert (S : sgn (hi + - lo) = Gt).
  { unfold sgn. now apply Qcgt_alt. }
  unfold div. rewrite S. unfold between.
  apply Qc_ratio_bounds; trivial.
  - now apply Qcle_minus_iff in Hlo.
  - apply Qcplus_le_compat; [exact Hhi | apply Qcle_refl].
Qed.

(** Without a range above 0 all the finite values are equal. *)
Lemma no_range_constant (l : list number) :
  l <> [] -> Forall finite l ->
  ((JsMath.max l - JsMath.min l) >? zero) = false ->
  exists q, Forall (fun v => v = Fin q) l.
Proof.
  intros NE F.
  destruct (max_min_finite l NE F) as (lo & hi & -> & -> & _ & _ & B).
  rewrite sub_gt_zero, gt_Fin_false. intro H.
  exists lo. apply Forall_forall. intros v I.
  rewrite Forall_forall in F.
  destruct (finite_Fin _ (F _ I)) as [q ->]. f_equal.
  destruct (B q I) as [Hlo Hhi].
  apply Qcle_antisym; trivial. eapply Qcle_trans; eassumption.
Qed.

Lemma of_Z_sub (a b : Z) : of_Z a - of_Z b = of_Z (a - b).
Proof.
  unfold sub, of_Z. cbn [neg add]. f_equal. apply Qc_is_canon.
  unfold Qcplus, Qcopp, Q2Qc. cbn [this].
  rewrite !Qred_correct. unfold Z.sub.
  rewrite inject_Z_plus, inject_Z_opp. reflexivity.
Qed.

Lemma of_Z_le (a b : Z) :
  (a <= b)%Z -> (Q2Qc (inject_Z a) <= Q2Qc (inject_Z b))%Qc.
Proof.
  intro H. unfold Qcle, Q2Qc. cbn [this]. rewrite !Qred_correct.
  now rewrite <- Zle_Qle.
Qed.

Lemma of_Z_lt (a b : Z) :
  (a < b)%Z -> (Q2Qc (inject_Z a) < Q2Qc (inject_Z b))%Qc.
Proof.
  intro H. unfold Qclt, Q2Qc. cbn [this]. rewrite !Qred_correct.
  now rewrite <- Zlt_Qlt.
Qed.

(** ** Affine images of the unit interval *)

Lemma unit_interval (a : number) :
  between 0 1 a ->
  exists n, a = Fin n /\ (Q2Qc 0 <= n /\ n <= Q2Qc 1)%Qc.
Proof. destruct a; simpl; try tauto. eauto. Qed.

Lemma falling_between (a : number) :
  between 0 1 a -> between 0 100 (hundred - a * hundred).
Proof.
  intro B. destruct (unit_interval a B) as (n & -> & H0 & H1).
  unfold hundred, of_Z, sub. cbn [mul neg add between].
  assert (C : (Q2Qc 0 <= Q2Qc (inject_Z 100))%Qc) by qc_const.
  destruct (Qc_scale_bounds n _ H0 H1 C) as [L U].
  change (Q2Qc (inject_Z 0)) with (Q2Qc 0). split.
  - now apply Qcle_minus_iff in U.
  - apply Qcle_minus_iff.
    now replace (Q2Qc (inject_Z 100)
                 + - (Q2Qc (inject_Z 100) + - (n * Q2Qc (inject_Z 100))))%Qc
      with (n * Q2Qc (inject_Z 100))%Qc by ring.
Qed.

Lemma rising_between (base span : Z) (a : number) :
  (0 <= span)%Z ->
  between 0 1 a ->
  between base (base + span) (of_Z base + a * of_Z span).
Proof.
  intros Hs B. destruct (unit_interval a B) as (n & -> & H0 & H1).
  unfold of_Z. cbn [mul add between].
  assert (C : (Q2Qc 0 <= Q2Qc (inject_Z span))%Qc)
    by (apply (of_Z_le 0 span Hs)).
  destruct (Qc_scale_bounds n _ H0 H1 C) as [L U]. split.
  - replace (Q2Qc (inject_Z base))
      with (Q2Qc (inject_Z base) + Q2Qc 0)%Qc at 1 by ring.
    apply Qcplus_le_compat; [apply Qcle_refl | exact L].
  - replace (Q2Qc (inject_Z (base + span)))
      with (Q2Qc (inject_Z base) + Q2Qc (inject_Z span))%Qc.
    + apply Qcplus_le_compat; [apply Qcle_refl | exact U].
    + apply Qc_is_canon. unfold Qcplus, Q2Qc. cbn [this].
      rewrite !Qred_correct, inject_Z_plus. reflexivity.
Qed.

Lemma map_index_Forall {A B : Type} (P : B -> Prop) (f : A -> nat -> B)
    (l : list A) :
  (forall item index, In item l -> P (f item index)) ->
  forall start, Forall P (map_index f l start).
Proof.
  induction l as [|a l IH]; intros H start; simpl; constructor.
  - apply H. now left.
  - apply IH. intros item index I. apply H. now right.
Qed.

Lemma map_index_map {A B C : Type} (g : B -> C) (f : A -> nat -> B)
    (h : A -> C) (l : list A) :
  (forall item index, g (f item index) = h item) ->
  forall start, map g (map_index f l start) = map h l.
Proof.
  intro H. induction l as [|a l IH]; intro start; simpl; trivial.
  now rewrite H, IH.
Qed.

(** ** The line chart *)

Section LineChartFacts.
Import LineChart.



(** X16: the only point of a series of one value, whatever the value, has
    no horizontal position: its x is 0 / 0 * 100, while its y is 50. *)
Theorem single_point_has_no_x (d : LineChartDataPoint) :
  exists c,
    chart [d] = Some c /\
    map x (points c) = [NaN] /\
    map y (points c) = [of_Z 50].
Proof.
  eexists. split; [reflexivity|]. split; [reflexivity|].
  cbn [points map_index map y point map].
  unfold JsMath.max, JsMath.min. cbn [fold_left].
  destruct (value d) as [q| | |]; try reflexivity.
  change (JsMath.max2 NegInfinity (Fin q)) with (Fin q).
  change (JsMath.min2 PosInfinity (Fin q)) with (Fin q).
  now rewrite sub_self_not_positive.
Qed.

Lemma map_index_nth {A B : Type} (f : A -> nat -> B) (l : list A) :
  forall start i,
    nth_error (map_index f l start) i =
    option_map (fun a => f a (start + i)%nat) (nth_error l i).
Proof.
  induction l as [|a l IH]; intros start [|i]; simpl; trivial.
  - now rewrite Nat.add_0_r.
  - rewrite IH. now rewrite Nat.add_succ_r.
Qed.

Lemma x_position (n i : nat) :
  (2 <= n)%nat -> (i < n)%nat ->
  let x := (of_Z (Z.of_nat i) / (of_Z (Z.of_nat n) - one)) * hundred in
  between 0 100 x /\
  (i = 0%nat -> x = zero) /\
  (S i = n -> x = hundred).
Proof.
  intros Hn Hi. cbv zeta. unfold one. rewrite !of_Z_sub.
  set (m := (Z.of_nat n - 1)%Z).
  assert (Pm : (0 < m)%Z) by (unfold m; lia).
  assert (Hm : (Q2Qc 0 < Q2Qc (inject_Z m))%Qc) by (apply (of_Z_lt 0 m Pm)).
  assert (Nm : Q2Qc (inject_Z m) <> Q2Qc 0).
  { intro E. rewrite E in Hm. apply (Qclt_not_le _ _ Hm). apply Qcle_refl. }
  assert (S : sgn (Q2Qc (inject_Z m)) = Gt)
    by (unfold sgn; now apply Qcgt_alt).
  assert (X : of_Z (Z.of_nat i) / of_Z m * hundred =
              Fin (Q2Qc (inject_Z (Z.of_nat i)) / Q2Qc (inject_Z m)
                   * Q2Qc (inject_Z 100))%Qc).
  { unfold of_Z, hundred, div. now rewrite S. }
  rewrite !X. cbn [between].
  assert (H0 : (Q2Qc 0 <= Q2Qc (inject_Z (Z.of_nat i)))%Qc)
    by (apply (of_Z_le 0); lia).
  assert (H1 : (Q2Qc (inject_Z (Z.of_nat i)) <= Q2Qc (inject_Z m))%Qc)
    by (apply of_Z_le; unfold m; lia).
  destruct (Qc_ratio_bounds _ _ H0 H1 Hm) as [R0 R1].
  assert (C : (Q2Qc 0 <= Q2Qc (inject_Z 100))%Qc) by qc_const.
  destruct (Qc_scale_bounds _ _ R0 R1 C) as [L U].
  split; [split; assumption|]. split.
  - intros ->. unfold zero, of_Z. apply f_equal. cbn [Z.of_nat].
    change (Q2Qc (inject_Z 0)) with (Q2Qc 0). field; exact Nm.
  - intro E. unfold hundred, of_Z. apply f_equal.
    replace (Z.of_nat i) with m by (unfold m; lia).
    field; exact Nm.
Qed.

Lemma chart_points (data : list LineChartDataPoint) c :
  chart data = Some c ->
  points c =
  map_index
    (point (List.length data) (JsMath.min (map value data))
       (JsMath.max (map value data) - JsMath.min (map value data)))
    data 0.
Proof.
  destruct data; [discriminate|]. intros [= <-]. reflexivity.
Qed.

(** X17: in a chart of two or more points every x lies between 0 and 100,
    the first point is at 0 and the last one at 100. *)
Theorem line_chart_spans_width (data : list LineChartDataPoint) c :
  (2 <= List.length data)%nat ->
  chart data = Some c ->
  Forall (fun p => between 0 100 (x p)) (points c) /\
  option_map x (nth_error (points c) 0) = Some zero /\
  option_map x (nth_error (points c) (List.length data - 1)) = Some hundred.
Proof.
  intros Hn E. rewrite (chart_points _ _ E).
  set (l := data) in *. clearbody l. clear E.
  split; [|split].
  - apply Forall_forall. intros p I.
    apply In_nth_error in I. destruct I as [i I].
    rewrite map_index_nth in I.
    destruct (nth_error l i) as [a|] eqn:Ea; [|discriminate].
    injection I as <-.
    assert (Hi : (i < List.length l)%nat).
    { apply nth_error_Some. congruence. }
    exact (proj1 (x_position (List.length l) i Hn Hi)).
  - rewrite map_index_nth.
    destruct (nth_error l 0) as [a|] eqn:Ea.
    + cbn [option_map point x]. f_equal.
      apply (proj2 (x_position (List.length l) 0 Hn ltac:(lia))).
      reflexivity.
    + apply nth_error_None in Ea. lia.
  - rewrite map_index_nth.
    destruct (nth_error l (List.length l - 1)) as [a|] eqn:Ea.
    + cbn [option_map point x]. f_equal.
      apply (proj2 (x_position (List.length l) (List.length l - 1) Hn
                      ltac:(lia))).
      lia.
    + apply nth_error_None in Ea. lia.
Qed.

Lemma line_chart_spans_width_witness :
  exists c,
    chart
      (map of_weekly
         (WeeklyView.revenueByWeek
            (WeeklyView.weeklyMetrics WeeklyView.iso_getTime (fun s => s)
               (Some [Samples.february; Samples.january; Samples.march]))))
    = Some c /\
    option_map x (nth_error (points c) 2) = Some hundred /\
    map x (points c) = [zero; of_Z 50; hundred].
Proof.
  eexists. split; [reflexivity|]. split.
  - exact (proj2 (proj2
             (line_chart_spans_width
                (map of_weekly
                   (WeeklyView.revenueByWeek
                      (WeeklyView.weeklyMetrics WeeklyView.iso_getTime
                         (fun s => s)
                         (Some [Samples.february; Samples.january;
                                Samples.march])))) _
                ltac:(vm_compute; lia) eq_refl))).
  - number_eq.
Defined.

End LineChartFacts.

(** ** The heat map *)

Section HeatMapFacts.
Import HeatMap.

Lemma normalized_between valueKey (data : list HeatMapDataPoint) item :
  Forall (fun d => finite (value_of valueKey d)) data ->
  In item data ->
  let values := map (value_of valueKey) data in
  between 0 1
    (normalizedValue (JsMath.min values)
       (JsMath.max values - JsMath.min values) (value_of valueKey item)).
Proof.
  intros F I. cbv zeta. unfold normalizedValue.
  assert (Fv : Forall finite (map (value_of valueKey) data))
    by (now apply Forall_map).
  destruct (JsMath.max _ - JsMath.min _ >? zero) eqn:R.
  - rewrite Forall_forall in F.
    destruct (finite_Fin _ (F _ I)) as [q Eq]. rewrite Eq.
    apply (ratio_between _ q Fv); trivial.
    rewrite <- Eq. now apply in_map.
  - unfold between, of_decimal. split; qc_const.
Qed.

Lemma hue_between (a : number) :
  between 0 1 a ->
  between 0 120 (of_Z 120 * a) /\
  between 120 240 (of_Z 240 - of_Z 120 * a).
Proof.
  intro B. destruct (unit_interval a B) as (n & -> & H0 & H1).
  unfold of_Z, sub. cbn [mul neg add between].
  assert (C : (Q2Qc 0 <= Q2Qc (inject_Z 120))%Qc) by qc_const.
  destruct (Qc_scale_bounds n _ H0 H1 C) as [L U].
  rewrite (Qcmult_comm (Q2Qc (inject_Z 120)) n).
  change (Q2Qc (inject_Z 0)) with (Q2Qc 0).
  split; [split; assumption|]. split.
  - apply Qcle_minus_iff.
    replace (Q2Qc (inject_Z 240) + - (n * Q2Qc (inject_Z 120))
             + - Q2Qc (inject_Z 120))%Qc
      with (Q2Qc (inject_Z 120) + - (n * Q2Qc (inject_Z 120)))%Qc.
    + now apply Qcle_minus_iff in U.
    + replace (Q2Qc (inject_Z 240))
        with (Q2Qc (inject_Z 120) + Q2Qc (inject_Z 120))%Qc
        by (apply Qc_is_canon; reflexivity).
      ring.
  - apply Qcle_minus_iff.
    now replace (Q2Qc (inject_Z 240)
                 + - (Q2Qc (inject_Z 240) + - (n * Q2Qc (inject_Z 120))))%Qc
      with (n * Q2Qc (inject_Z 120))%Qc by ring.
Qed.


Lemma of_region_value sel (g : RegionView.RegionGroup) :
  value_of (of_selected sel) (of_region (RegionView.with_coordinates sel g)) =
  RegionView.select sel g.
Proof.
  destruct sel; unfold value_of; cbn;
    unfold or_else; now destruct (truthy _).
Qed.



End HeatMapFacts.

(** ** A flat series *)

Section FlatSeries.
Import LineChart.

(** X20: a series whose values are one and the same finite number is
    drawn as a level line at mid-height: the y of every point is 50. *)
Theorem flat_series_at_mid_height (data : list LineChartDataPoint) c q :
  Forall (fun d => value d = Fin q) data ->
  chart data = Some c ->
  Forall (fun p => y p = of_Z 50) (points c).
Proof.
  intros F E. rewrite (chart_points _ _ E).
  assert (NE : map value data <> []).
  { destruct data; [discriminate|]. discriminate. }
  assert (Fv : Forall finite (map value data)).
  { apply Forall_map. eapply Forall_impl; [|exact F].
    intros d ->. exact I. }
  assert (Fq : forall v, In v (map value data) -> v = Fin q).
  { intros v Hv. apply in_map_iff in Hv. destruct Hv as [d [<- Hd]].
    rewrite Forall_forall in F. now apply F. }
  destruct (max_min_finite _ NE Fv) as (lo & hi & El & Eh & Il & Ih & _).
  rewrite El, Eh.
  apply Fq in Il, Ih. injection Il as ->. injection Ih as ->.
  apply map_index_Forall. intros item index _. unfold point. cbn [y].
  now rewrite sub_self_not_positive.
Qed.

Lemma flat_series_at_mid_height_witness :
  exists c,
    chart MoreSamples.level = Some c /\
    Forall (fun p => y p = of_Z 50) (points c).
Proof.
  eexists. split; [reflexivity|].
  apply (flat_series_at_mid_height MoreSamples.level _ (Q2Qc (inject_Z 7))).
  - repeat constructor.
  - reflexivity.
Defined.

End FlatSeries.

(** ** The order of the campaigns *)

Lemma merge_sum_Permutation {A : Type} (f : A -> A -> A) :
  (forall a b c, f a (f b c) = f (f a b) c) ->
  (forall a b, f a b = f b a) ->
  forall l l', Permutation l l' ->
  forall a, merge_sum f l a = merge_sum f l' a.
Proof.
  intros Ha Hc l l' P. unfold merge_sum.
  induction P as [|x l l' P IH|x y l|l l' l'' P IH P' IH']; intro a.
  - reflexivity.
  - simpl. apply IH.
  - simpl. f_equal. destruct a as [a|]; simpl; f_equal; trivial.
    now rewrite <- !Ha, (Hc y x).
  - now rewrite IH.
Qed.

Lemma filter_Permutation {A : Type} (p : A -> bool) (l l' : list A) :
  Permutation l l' -> Permutation (filter p l) (filter p l').
Proof.
  induction 1 as [|x l l' P IH|x y l|l l' l'' P IH P' IH'].
  - constructor.
  - simpl. destruct (p x); auto.
  - simpl. destruct (p x), (p y); auto using perm_swap.
  - etransitivity; eassumption.
Qed.

Lemma flat_map_Permutation {A B : Type} (g : A -> list B) (l l' : list A) :
  Permutation l l' -> Permutation (flat_map g l) (flat_map g l').
Proof.
  induction 1 as [|x l l' P IH|x y l|l l' l'' P IH P' IH'].
  - constructor.
  - simpl. now apply Permutation_app_head.
  - simpl. rewrite !app_assoc. apply Permutation_app_tail.
    apply Permutation_app_comm.
  - etransitivity; eassumption.
Qed.

Lemma counters_add_comm (a b : Counters) :
  counters_add a b = counters_add b a.
Proof.
  unfold counters_add. f_equal; apply add_comm.
Qed.

Lemma fold_counters_Permutation (l l' : list Counters) :
  Permutation l l' ->
  forall a, fold_left counters_add l a = fold_left counters_add l' a.
Proof.
  induction 1 as [|x l l' P IH|x y l|l l' l'' P IH P' IH']; intro a.
  - reflexivity.
  - simpl. apply IH.
  - simpl. f_equal.
    now rewrite <- !counters_add_assoc, (counters_add_comm y x).
  - now rewrite IH.
Qed.


